(** * Payroll report generator: ingestion pipeline and pay-period aggregation

    A shallow embedding of [index.js] (the [/upload] and [/report] handlers,
    [processCSVFile] and [getPayPeriod]) together with the column types of
    [schema.sql], and the properties of the design document checked against
    it.

    Conventions of the embedding.
    - JavaScript strings are [string]s, built with [+:+]; integers are
      rendered by [pretty], stdpp's decimal printer, which is what
      [Number.prototype.toString] and template literals produce for integers.
    - A JavaScript [Date] is read by the code only through [getFullYear],
      [getMonth] and [getDate], so it is a record of these three fields.
    - Amounts of money are JavaScript numbers.  Hours are [DECIMAL(5,2)]
      values, i.e. exact hundredths, and rates are integers, so every
      product and sum is an exact number of hundredths; the embedding keeps
      that integer and adds the one non-numeric value the code can produce,
      [NaN].  Rounding of IEEE doubles is not part of the model.
    - The relational store is a record of two tables with a transaction
      snapshot; what the store itself refuses (a value that does not fit its
      column) is a parameter [accepts] of the upload handler. *)

From Stdlib Require Import ZArith Ascii.
From stdpp Require Import base numbers list strings pretty sorting gmap.

Local Open Scope Z_scope.

(** ** JavaScript primitives used by the handlers *)

Module JS.

(** [s.padStart(2, '0')]. *)
Definition padStart2 (s : string) : string :=
  match String.length s with
  | O => "00" +:+ s
  | S O => "0" +:+ s
  | _ => s
  end.

(** [s.split(sep)] for a one-character separator. *)
Fixpoint split (sep : ascii) (s : string) : list string :=
  match s with
  | EmptyString => [EmptyString]
  | String c s' =>
      if decide (c = sep) then EmptyString :: split sep s'
      else match split sep s' with
           | part :: parts => String c part :: parts
           | [] => [String c EmptyString]
           end
  end.

(** The value of a decimal digit character, if it is one. *)
Definition digit (c : ascii) : option Z :=
  let code := Z.of_nat (nat_of_ascii c) in
  if (48 <=? code) && (code <=? 57) then Some (code - 48) else None.

Definition isDigit (c : ascii) : bool :=
  match digit c with Some _ => true | None => false end.

(** Whether every character of [s] matches [\d]. *)
Fixpoint allDigits (s : string) : bool :=
  match s with
  | EmptyString => true
  | String c s' => isDigit c && allDigits s'
  end.

(** Reads a run of decimal digits, most significant first, on top of [acc];
    [None] as soon as a character is not a digit. *)
Fixpoint digits_go (acc : Z) (s : string) : option Z :=
  match s with
  | EmptyString => Some acc
  | String c s' =>
      match digit c with
      | Some d => digits_go (acc * 10 + d) s'
      | None => None
      end
  end.

Definition digits (s : string) : option Z :=
  match s with
  | EmptyString => None
  | _ => digits_go 0 s
  end.

(** [Number(s)] as the comparator of the report applies it (through [-]) to
    an [employeeId] string: a decimal integer literal with an optional minus
    sign.  [None] is [NaN].  The other numeric literals of the language
    (fractions, exponents, hexadecimal, surrounding blanks, the empty
    string) never arise from [toString] of an integer and are not modelled. *)
Definition ToNumber (s : string) : option Z :=
  match s with
  | String c s' => if decide (c = "-"%char) then Z.opp <$> digits s' else digits s
  | EmptyString => None
  end.

(** *** Calendar arithmetic of [Date] (ECMAScript, Day Number and Time) *)

Definition isLeap (y : Z) : bool :=
  (y mod 4 =? 0) && (negb (y mod 100 =? 0) || (y mod 400 =? 0)).

(** Days of month [m] (1 = January) of year [y]. *)
Definition daysInMonth (y m : Z) : Z :=
  match m with
  | 2 => if isLeap y then 29 else 28
  | 4 | 6 | 9 | 11 => 30
  | _ => 31
  end.

(** [DayFromYear]: the day number of 1 January of year [y], 0 being
    1 January 1970. *)
Definition DayFromYear (y : Z) : Z :=
  365 * (y - 1970) + (y - 1969) / 4 - (y - 1901) / 100 + (y - 1601) / 400.

Definition leapDay (y : Z) : Z := if isLeap y then 1 else 0.

(** Days of year [y] before its month [m] (1 = January). *)
Definition daysBeforeMonth (y m : Z) : Z :=
  let leap := leapDay y in
  match m with
  | 1 => 0 | 2 => 31 | 3 => 59 + leap | 4 => 90 + leap | 5 => 120 + leap
  | 6 => 151 + leap | 7 => 181 + leap | 8 => 212 + leap | 9 => 243 + leap
  | 10 => 273 + leap | 11 => 304 + leap | _ => 334 + leap
  end.

(** [MakeDay] for a month given 1-based and in range. *)
Definition MakeDay (y m d : Z) : Z :=
  DayFromYear y + daysBeforeMonth y m + d - 1.

Definition msPerDay : Z := 86400000.

(** The constructor [new Date(year, monthIndex, day)] reads a year between
    0 and 99 as a year of the twentieth century. *)
Definition Date_full_year (year : Z) : Z :=
  if (0 <=? year) && (year <=? 99) then 1900 + year else year.

(** [new Date(year, monthIndex, 0).getDate()]: day 0 of the month with index
    [monthIndex] (0 = January) is the last day of the month before it. *)
Definition Date_day0_getDate (year monthIndex : Z) : Z :=
  let prev := monthIndex - 1 in
  daysInMonth (Date_full_year year + prev / 12) (prev mod 12 + 1).

(** [new Date(s)] for a string [s], as a time value in milliseconds.  The
    date-only ISO form [YYYY-MM-DD] is read as midnight UTC of that day.
    [None] is the invalid date, whose time value is [NaN].  What an engine
    makes of a string that is not of this form is left to the engine by the
    language; the model answers [None] there, and no theorem below relies on
    that answer. *)
Definition Date_parse (s : string) : option Z :=
  match s with
  | String y1 (String y2 (String y3 (String y4 (String "-"
      (String m1 (String m2 (String "-" (String d1 (String d2 "")))))))))
    =>
      y ← digits (String y1 (String y2 (String y3 (String y4 ""))));
      m ← digits (String m1 (String m2 ""));
      d ← digits (String d1 (String d2 ""));
      if (1 <=? m) && (m <=? 12) && (1 <=? d) && (d <=? daysInMonth y m)
      then Some (MakeDay y m d * msPerDay)
      else None
  | _ => None
  end.

(** The fields of a date-only ISO string, for stating results. *)
Definition iso_fields (s : string) : option (Z * Z * Z) :=
  match s with
  | String y1 (String y2 (String y3 (String y4 (String "-"
      (String m1 (String m2 (String "-" (String d1 (String d2 "")))))))))
    =>
      y ← digits (String y1 (String y2 (String y3 (String y4 ""))));
      m ← digits (String m1 (String m2 ""));
      d ← digits (String d1 (String d2 ""));
      Some (y, m, d)
  | _ => None
  end.


(** Subtraction of two numbers either of which may be [NaN]. *)
Definition sub (a b : option Z) : option Z :=
  x ← a; y ← b; Some (x - y).

(** A number that holds an amount: an exact count of hundredths, or [NaN]. *)
Inductive number :=
  | Num (hundredths : Z)
  | NaN.

(** [hours * rate], where [hours] is a count of hundredths and [rate] is the
    result of a property lookup: an integer, or [undefined] ([None]), which
    the multiplication turns into [NaN]. *)
Definition mul (hours : Z) (rate : option Z) : number :=
  match rate with
  | Some r => Num (hours * r)
  | None => NaN
  end.

Definition add (a b : number) : number :=
  match a, b with
  | Num x, Num y => Num (x + y)
  | _, _ => NaN
  end.

(** [x.toFixed(2)], for a number below 1e21 in absolute value (beyond it the
    method switches to exponent notation). *)
Definition toFixed2 (x : number) : string :=
  match x with
  | NaN => "NaN"
  | Num c =>
      (if c <? 0 then "-" else "")
      +:+ pretty (Z.abs c / 100) +:+ "." +:+ padStart2 (pretty (Z.abs c mod 100))
  end.

End JS.

(** ** Pay-period resolver *)

Record Date := mkDate {
  getFullYear : Z;
  getMonth : Z;     (* 0 = January *)
  getDate : Z
}.

Global Instance Date_eq_dec : EqDecision Date.
Proof. solve_decision. Defined.

(** The dates a [Date] object can hold. *)
Definition valid_date (d : Date) : Prop :=
  0 <= getMonth d <= 11 ∧
  1 <= getDate d <= JS.daysInMonth (getFullYear d) (getMonth d + 1).

Record PayPeriod := mkPayPeriod {
  startDate : string;
  endDate : string
}.

Global Instance PayPeriod_eq_dec : EqDecision PayPeriod.
Proof. solve_decision. Defined.

Definition getPayPeriod (date : Date) : PayPeriod :=
  let year := getFullYear date in
  let month := getMonth date + 1 in
  if getDate date <=? 15 then
    {| startDate := pretty year +:+ "-" +:+ JS.padStart2 (pretty month) +:+ "-01";
       endDate := pretty year +:+ "-" +:+ JS.padStart2 (pretty month) +:+ "-15" |}
  else
    let lastDayOfMonth := JS.Date_day0_getDate year month in
    {| startDate := pretty year +:+ "-" +:+ JS.padStart2 (pretty month) +:+ "-16";
       endDate := pretty year +:+ "-" +:+ JS.padStart2 (pretty month) +:+ "-"
                  +:+ pretty lastDayOfMonth |}.

(** What the design promises of the resolver at a date [d]: both boundaries
    are date-only ISO strings of the year and month of [d]; they are the 1st
    and the 15th when the day of [d] is at most 15, the 16th and the last
    day of the month otherwise; the day of [d] lies between them. *)
Definition resolves (d : Date) : Prop :=
  let p := getPayPeriod d in
  let y := getFullYear d in
  let m := getMonth d + 1 in
  ∃ s e,
    JS.iso_fields (startDate p) = Some (y, m, s)
    ∧ JS.iso_fields (endDate p) = Some (y, m, e)
    ∧ (if decide (getDate d ≤ 15) then s = 1 ∧ e = 15
       else s = 16 ∧ e = JS.daysInMonth y m)
    ∧ 1 ≤ s ∧ s ≤ getDate d ∧ getDate d ≤ e ∧ e ≤ JS.daysInMonth y m.

(** ** Responses of the two handlers *)

(** A payroll line before and after rendering has the same three fields:
    [I] and [A] are [Z] and [JS.number] in the accumulator, [string] and
    [string] in the response. *)
Record Entry (I A : Type) := mkEntry {
  employeeId : I;
  payPeriod : PayPeriod;
  amountPaid : A
}.
Global Arguments mkEntry {I A} _ _ _.
Global Arguments employeeId {I A} _.
Global Arguments payPeriod {I A} _.
Global Arguments amountPaid {I A} _.

Definition Line : Type := Entry string string.

Inductive Body :=
  | ErrorBody (error : string)            (* { error } *)
  | MessageBody (message : string)        (* { message } *)
  | ReportBody (employeeReports : list Line).
                                          (* { payrollReport: { employeeReports } } *)

Record Response := mkResponse {
  status : Z;
  body : Body
}.

(** ** Payroll aggregator: [GET /report] *)

Module Report.

(** A row of [timekeeping_entries] as the query of the report returns it.
    [date] is the [Date] the driver builds from the [DATE] column, which
    [new Date(row.date)] copies; [hours_worked] is the [DECIMAL(5,2)] value,
    counted in hundredths of an hour; [employee_id] is the [INTEGER]. *)
Record Row := mkRow {
  date : Date;
  hours_worked : Z;
  employee_id : Z;
  job_group : string
}.

(** [jobGroupRates[jobGroup]].  Any property other than [A] and [B] is
    either absent or inherited from [Object.prototype]; in both cases it is
    not a number and the product made with it is [NaN]. *)
Definition jobGroupRates (jobGroup : string) : option Z :=
  if decide (jobGroup = "A") then Some 30
  else if decide (jobGroup = "B") then Some 20
  else None.

Definition Acc : Type := Entry Z JS.number.

(** [employeePayData]: the own properties of the object in insertion order,
    which is the order [for ... in] visits them (no key is an array index:
    every key contains a hyphen). *)
Definition PayData : Type := list (string * Acc).

Fixpoint obj_get (key : string) (obj : PayData) : option Acc :=
  match obj with
  | [] => None
  | (k, v) :: rest => if decide (k = key) then Some v else obj_get key rest
  end.

(** Assignment to a property: in place when it exists, appended otherwise. *)
Fixpoint obj_set (key : string) (v : Acc) (obj : PayData) : PayData :=
  match obj with
  | [] => [(key, v)]
  | (k, w) :: rest =>
      if decide (k = key) then (k, v) :: rest else (k, w) :: obj_set key v rest
  end.

Definition keyOf (employeeId : Z) (payPeriod : PayPeriod) : string :=
  pretty employeeId +:+ "-" +:+ startDate payPeriod +:+ "-" +:+ endDate payPeriod.

(** The key the loop computes for a row. *)
Definition rowKey (row : Row) : string :=
  keyOf (employee_id row) (getPayPeriod (date row)).

(** The body of [timekeepingData.forEach]. *)
Definition accumulateRow (employeePayData : PayData) (row : Row) : PayData :=
  let employeeId := employee_id row in
  let hoursWorked := hours_worked row in
  let payRate := jobGroupRates (job_group row) in
  let payPeriod := getPayPeriod (date row) in
  let key := keyOf employeeId payPeriod in
  let employeePayData :=
    match obj_get key employeePayData with
    | None => obj_set key (mkEntry employeeId payPeriod (JS.Num 0)) employeePayData
    | Some _ => employeePayData
    end in
  match obj_get key employeePayData with
  | Some (mkEntry id period amount) =>
      (* employeePayData[key].amountPaid += hoursWorked * payRate *)
      obj_set key
        (mkEntry id period (JS.add amount (JS.mul hoursWorked payRate)))
        employeePayData
  | None => employeePayData
  end.

Definition accumulate (timekeepingData : list Row) : PayData :=
  fold_left accumulateRow timekeepingData [].

(** The [for ... in] loop that formats the report. *)
Definition format (employeePayData : PayData) : list Line :=
  map (λ kv : string * Acc,
         let employeeData := kv.2 in
         mkEntry (pretty (employeeId employeeData))
                 (payPeriod employeeData)
                 ("$" +:+ JS.toFixed2 (amountPaid employeeData)))
      employeePayData.

(** The comparator given to [sort]. *)
Definition compareLines (a b : Line) : option Z :=
  if decide (employeeId a = employeeId b) then
    JS.sub (JS.Date_parse (startDate (payPeriod a)))
           (JS.Date_parse (startDate (payPeriod b)))
  else
    JS.sub (JS.ToNumber (employeeId a)) (JS.ToNumber (employeeId b)).

(** [Array.prototype.sort] with a comparator.  The sort is stable, and a
    comparator result that is [NaN] counts as 0; the embedding is the stable
    insertion sort, which every conforming sort agrees with when the
    comparator is consistent. *)
Section sort.
Context {A : Type} (comparator : A → A → option Z).

Definition goesAfter (x y : A) : bool :=
  match comparator x y with
  | Some v => bool_decide (0 < v)
  | None => false
  end.

Fixpoint insert (x : A) (l : list A) : list A :=
  match l with
  | [] => [x]
  | y :: l' => if goesAfter x y then y :: insert x l' else x :: l
  end.

Definition sort (l : list A) : list A := foldr insert [] l.
End sort.

Definition report (timekeepingData : list Row) : list Line :=
  sort compareLines (format (accumulate timekeepingData)).

(** The handler.  [result] is what [client.query] settles to: the rows of
    [timekeeping_entries] in the order the store returns them, or [None]
    when the query is rejected.  The handler writes nothing. *)
Definition reportHandler (result : option (list Row)) : Response :=
  match result with
  | Some timekeepingData => mkResponse 200 (ReportBody (report timekeepingData))
  | None => mkResponse 500 (ErrorBody "Internal server error")
  end.

(** *** What the design promises of the report

    The rows that share the employee and the pay period of [r], the pay of a
    row, and the line the design expects for the pair of [r]: the sum of the
    pays of its rows, rendered. *)
Definition group (rows : list Row) (r : Row) : list Row :=
  filter (λ r', employee_id r' = employee_id r
                ∧ getPayPeriod (date r') = getPayPeriod (date r)) rows.

Definition pay (r : Row) : JS.number :=
  JS.mul (hours_worked r) (jobGroupRates (job_group r)).

Definition sumNumbers (l : list JS.number) : JS.number :=
  foldr JS.add (JS.Num 0) l.

Definition valid_rows (rows : list Row) : Prop :=
  Forall (λ r, valid_date (date r)) rows.

(** The entry the accumulator is expected to hold for the pair of [r]. *)
Definition accOf (rows : list Row) (r : Row) : Acc :=
  mkEntry (employee_id r) (getPayPeriod (date r))
          (sumNumbers (pay <$> group rows r)).

Definition lineOf (rows : list Row) (r : Row) : Line :=
  mkEntry (pretty (employee_id r)) (getPayPeriod (date r))
          ("$" +:+ JS.toFixed2 (sumNumbers (pay <$> group rows r))).



(** The first day of the period of [d], and its time value. *)
Definition startDay (d : Date) : Z := if decide (getDate d ≤ 15) then 1 else 16.



(** The same order, allowing equal keys. *)
Definition lineLe (a b : Line) : Prop :=
  ∃ ia ib ta tb,
    JS.ToNumber (employeeId a) = Some ia
    ∧ JS.ToNumber (employeeId b) = Some ib
    ∧ JS.Date_parse (startDate (payPeriod a)) = Some ta
    ∧ JS.Date_parse (startDate (payPeriod b)) = Some tb
    ∧ (ia < ib ∨ (ia = ib ∧ ta ≤ tb)).







End Report.

(** ** Ingestion: [POST /upload] *)

Module Upload.

(** *** String functions of the language and of its [path] module *)

Definition toLowerChar (c : ascii) : ascii :=
  let n := nat_of_ascii c in
  if bool_decide (65 ≤ n ≤ 90)%nat then ascii_of_nat (n + 32) else c.

(** [s.toLowerCase()] on ASCII letters. *)
Fixpoint toLowerCase (s : string) : string :=
  match s with
  | EmptyString => EmptyString
  | String c s' => String (toLowerChar c) (toLowerCase s')
  end.

(** White space and line terminators, as [trim] understands them, among the
    first 256 code units. *)
Definition isWhiteSpace (c : ascii) : bool :=
  let n := nat_of_ascii c in
  bool_decide (9 ≤ n ≤ 13)%nat || bool_decide (n = 32)%nat || bool_decide (n = 160)%nat.

(** [value.trim() === '']. *)
Fixpoint isBlank (value : string) : bool :=
  match value with
  | EmptyString => true
  | String c s' => isWhiteSpace c && isBlank s'
  end.

(** [s] without the prefix [p], when it starts with it. *)
Fixpoint stripPrefix (p s : string) : option string :=
  match p, s with
  | EmptyString, _ => Some s
  | String a p', String b s' => if decide (a = b) then stripPrefix p' s' else None
  | String _ _, EmptyString => None
  end.

(** [s] without the suffix [x], when it ends with it. *)
Definition stripSuffix (x s : string) : option string :=
  String.rev <$> stripPrefix (String.rev x) (String.rev s).

(** The last component of a POSIX path, trailing slashes ignored. *)
Definition lastComponent (p : string) : string :=
  default EmptyString (last (filter (λ part, part ≠ EmptyString) (JS.split "/" p))).

(** The suffix of [s] that starts at its last dot. *)
Fixpoint fromLastDot (s : string) : option string :=
  match s with
  | EmptyString => None
  | String c s' =>
      match fromLastDot s' with
      | Some e => Some e
      | None => if decide (c = "."%char) then Some s else None
      end
  end.

(** [path.extname(p)]: from the last dot of the last component to its end;
    empty when there is no dot, when the component starts with its only dot,
    and for the component [..]. *)
Definition extname (p : string) : string :=
  let base := lastComponent p in
  match fromLastDot base with
  | None => EmptyString
  | Some e =>
      if decide (String.length e = String.length base) then EmptyString
      else if decide (base = "..") then EmptyString
      else e
  end.

(** [path.basename(p, ext)]: the last component, without [ext] when it ends
    with it and is longer than it. *)
Definition basename (p ext : string) : string :=
  if decide (p = ext) then EmptyString
  else
    let base := lastComponent p in
    match stripSuffix ext base with
    | Some stem => if decide (stem = EmptyString) then base else stem
    | None => base
    end.

(** [fileName.match(/^time-report-(\d+)$/)], giving the captured group. *)
Definition matchTimeReport (fileName : string) : option string :=
  match stripPrefix "time-report-" fileName with
  | Some ds =>
      if bool_decide (ds ≠ EmptyString) && JS.allDigits ds then Some ds else None
  | None => None
  end.

(** *** The uploaded file, the store and the errors *)

(** [req.file] as the upload middleware leaves it: the name the client gave
    and the path of the staged copy under [uploads/]. *)
Record File := mkFile {
  originalname : string;
  path : string
}.

(** What the CSV parser emits for a staged file: a [headers] event with the
    cells of the first line (none for an empty file), then a [data] event
    per line, whose row object maps a header to the cell below it.  A
    column a short line does not reach is absent from its row. *)
Record Csv := mkCsv {
  headers : option (list string);
  data : list (gmap string string)
}.

(** A row of [timekeeping_entries] as the handler sends it to the store. *)
Record TimekeepingEntry := mkTimekeepingEntry {
  report_id : string;
  date : string;
  hours_worked : string;
  employee_id : string;
  job_group : string
}.

Global Instance TimekeepingEntry_eq_dec : EqDecision TimekeepingEntry.
Proof. solve_decision. Defined.

(** Rows of [timekeeping_reports]: [report_id] and [filename]. *)
Definition Reports : Type := list (string * string).

Record World := mkWorld {
  uploads : gmap string Csv;                   (* staged files, by path *)
  timekeeping_reports : Reports;
  timekeeping_entries : list TimekeepingEntry;
  (* the tables as they were at [BEGIN], while a transaction is open *)
  transaction : option (Reports * list TimekeepingEntry)
}.

(** The values the handler can find thrown. *)
Inductive Error :=
  | MissingHeaders (names : string)
      (* Error(`CSV format error: Missing headers: ${names}`) *)
  | HeadersNotFound
      (* Error('CSV format error: Headers not found') *)
  | MissingFields
      (* Error('CSV format error: Missing required fields in one or more rows') *)
  | InvalidDate (row : gmap string string)
      (* Error(`CSV format error: Invalid date format in row: ...`) *)
  | StoreError
      (* a query rejected by the store *)
  | FileError.
      (* a staged file that cannot be read or removed *)

(** The responses of the handler, under the names the design gives to the
    outcomes. *)
Definition noFileProvided : Response :=
  mkResponse 400 (ErrorBody "No file uploaded").
Definition unsupportedFileType : Response :=
  mkResponse 400 (ErrorBody "Only CSV files are allowed").
Definition invalidFilenameFormat : Response :=
  mkResponse 400
    (ErrorBody "Invalid file name format. Expected format: time-report-x.csv").
Definition duplicateReport : Response :=
  mkResponse 409 (ErrorBody "Report ID already exists").
Definition emptyFile : Response :=
  mkResponse 400 (ErrorBody "Invalid CSV format: File Empty").
Definition stored : Response :=
  mkResponse 201 (MessageBody "File uploaded and data stored successfully").
Definition internalServerError : Response :=
  mkResponse 500 (ErrorBody "Internal server error").

(** Computations on the world that may throw. *)
Definition M (A : Type) : Type := World → World * (Error + A).

Definition ret {A} (a : A) : M A := λ w, (w, inr a).
Definition throw {A} (e : Error) : M A := λ w, (w, inl e).
Definition bind {A B} (m : M A) (k : A → M B) : M B :=
  λ w, match m w with
       | (w', inl e) => (w', inl e)
       | (w', inr a) => k a w'
       end.
Definition catch {A} (m : M A) (handler : Error → M A) : M A :=
  λ w, match m w with
       | (w', inl e) => handler e w'
       | (w', inr a) => (w', inr a)
       end.

Global Instance M_ret : MRet M := @ret.
Global Instance M_bind : MBind M := λ A B k m, bind m k.

(** [unlinkAsync(path)]. *)
Definition unlinkAsync (path : string) : M unit :=
  λ w, match uploads w !! path with
       | Some _ =>
           (mkWorld (delete path (uploads w)) (timekeeping_reports w)
                    (timekeeping_entries w) (transaction w), inr ())
       | None => (w, inl FileError)
       end.

(** [SELECT * FROM timekeeping_reports WHERE report_id = $1]: the rows whose
    [report_id], a [VARCHAR], is the string given. *)
Definition selectReports (reportId : string) : M Reports :=
  λ w, (w, inr (filter (λ r, r.1 = reportId) (timekeeping_reports w))).

(** [BEGIN]. *)
Definition queryBegin : M unit :=
  λ w, match transaction w with
       | None =>
           (mkWorld (uploads w) (timekeeping_reports w) (timekeeping_entries w)
                    (Some (timekeeping_reports w, timekeeping_entries w)), inr ())
       | Some _ => (w, inr ())
       end.

(** [COMMIT]. *)
Definition queryCommit : M unit :=
  λ w, (mkWorld (uploads w) (timekeeping_reports w) (timekeeping_entries w) None,
        inr ()).

(** [ROLLBACK]: the tables return to what they were at [BEGIN]; nothing
    changes when no transaction is open. *)
Definition queryRollback : M unit :=
  λ w, match transaction w with
       | Some (reports, entries) => (mkWorld (uploads w) reports entries None, inr ())
       | None => (w, inr ())
       end.

(** [INSERT INTO timekeeping_reports (report_id, filename)]: both columns are
    [VARCHAR(255)] and [report_id] is [UNIQUE]. *)
Definition insertReport (reportId filename : string) : M unit :=
  λ w,
    if bool_decide (String.length reportId ≤ 255)%nat
       && bool_decide (String.length filename ≤ 255)%nat
       && bool_decide (reportId ∉ (timekeeping_reports w).*1)
    then (mkWorld (uploads w) (timekeeping_reports w ++ [(reportId, filename)])
                  (timekeeping_entries w) (transaction w), inr ())
    else (w, inl StoreError).

Definition requiredHeaders : list string :=
  ["date"; "hours worked"; "employee id"; "job group"].

(** [missingHeaders.join(', ')]. *)
Fixpoint join (parts : list string) : string :=
  match parts with
  | [] => EmptyString
  | [s] => s
  | s :: rest => s +:+ ", " +:+ join rest
  end.

(** The test of the [data] handler of [processCSVFile]. *)
Definition isEmpty (row : gmap string string) : bool :=
  bool_decide (map_Forall (λ _ value, isBlank value = true) row).

(** [processCSVFile(filePath)]: the value the promise settles to. *)
Definition processCSVFile (filePath : string) : M (list (gmap string string)) :=
  λ w,
    match uploads w !! filePath with
    | None => (w, inl FileError)
    | Some csv =>
        match headers csv with
        | None => (w, inl HeadersNotFound)
        | Some headers =>
            let missingHeaders :=
              filter (λ header, header ∉ headers) requiredHeaders in
            if bool_decide (0 < length missingHeaders)%nat
            then (w, inl (MissingHeaders (join missingHeaders)))
            else (w, inr (filter (λ row, isEmpty row = false) (data csv)))
        end
    end.

(** A property read off a row is a string or [undefined] ([None]);
    [!value] holds of [undefined] and of the empty string. *)
Definition isUndefined (value : option string) : bool :=
  match value with
  | None => true
  | Some _ => false
  end.

Definition isFalsy (value : option string) : bool :=
  match value with
  | None => true
  | Some s => bool_decide (s = EmptyString)
  end.

(** The callback of [results.map], up to the query it builds. *)
Definition rowToEntry (reportId : string) (row : gmap string string)
    : Error + TimekeepingEntry :=
  let date := row !! "date" in
  let hours_worked := row !! "hours worked" in
  let employee_id := row !! "employee id" in
  let job_group := row !! "job group" in
  if isFalsy date || isUndefined hours_worked || isUndefined employee_id
     || isFalsy job_group
  then inl MissingFields
  else
    match date, hours_worked, employee_id, job_group with
    | Some date, Some hours_worked, Some employee_id, Some job_group =>
        let dateParts := JS.split "/" date in
        match dateParts with
        | [day; month; year] =>
            let formattedDate :=
              year +:+ "-" +:+ JS.padStart2 month +:+ "-" +:+ JS.padStart2 day in
            inr (mkTimekeepingEntry reportId formattedDate hours_worked
                                    employee_id job_group)
        | _ => inl (InvalidDate row)
        end
    | _, _, _, _ => inl MissingFields
    end.

(** [results.map(...)] runs to its end or to the first row that throws; the
    queries built before that row have been handed to the client. *)
Fixpoint mapRows (reportId : string) (results : list (gmap string string))
    : list TimekeepingEntry * option Error :=
  match results with
  | [] => ([], None)
  | row :: rest =>
      match rowToEntry reportId row with
      | inl e => ([], Some e)
      | inr entry =>
          let '(entries, err) := mapRows reportId rest in (entry :: entries, err)
      end
  end.

Section handler.
(** Whether the store takes a row of entries: the values must fit the
    columns [DATE], [DECIMAL(5,2)], [INTEGER] and [VARCHAR(1)]. *)
Variable accepts : TimekeepingEntry → bool.

(** [INSERT INTO timekeeping_entries ...]. *)
Definition insertEntry (entry : TimekeepingEntry) : M unit :=
  λ w,
    if accepts entry
    then (mkWorld (uploads w) (timekeeping_reports w)
                  (timekeeping_entries w ++ [entry]) (transaction w), inr ())
    else (w, inl StoreError).

(** The queries handed to the client run in the order they were issued;
    once one fails the transaction is aborted and the store ignores the
    rest. *)
Fixpoint runQueries (entries : list TimekeepingEntry) : M unit :=
  match entries with
  | [] => ret ()
  | entry :: rest => insertEntry entry;; runQueries rest
  end.

(** [results.map(...)] followed by [await Promise.all(insertPromises)]. *)
Definition insertRows (reportId : string) (results : list (gmap string string))
    : M unit :=
  match mapRows reportId results with
  | (issued, Some error) =>
      (* the map threw: the queries issued so far still reach the store,
         nobody awaits them, and the error goes to the handler *)
      catch (runQueries issued) (λ _, ret ());; throw error
  | (entries, None) => runQueries entries
  end.

(** The [try] block of the handler. *)
Definition uploadTry (file : File) : M Response :=
  let fileName := basename (originalname file) ".csv" in
  match matchTimeReport fileName with
  | None =>
      unlinkAsync (path file);;
      ret invalidFilenameFormat
  | Some reportId =>
      existingReport ← selectReports reportId;
      (* existingReport.rows.length > 0; the comparison of the result with
         "{}" that precedes it holds of every result of the store *)
      if bool_decide (0 < length existingReport)%nat then
        unlinkAsync (path file);;
        ret duplicateReport
      else
        results ← processCSVFile (path file);
        if bool_decide (length results = 0)%nat then
          unlinkAsync (path file);;
          ret emptyFile
        else
          queryBegin;;
          insertReport reportId (originalname file);;
          insertRows reportId results;;
          queryCommit;;
          unlinkAsync (path file);;
          ret stored
  end.

(** The handler of [POST /upload].  [file] is [req.file]; the result is the
    response sent, or the error the handler itself fails with. *)
Definition upload (file : option File) : M Response :=
  match file with
  | None => ret noFileProvided
  | Some file =>
      if decide (toLowerCase (extname (originalname file)) ≠ ".csv") then
        unlinkAsync (path file);;
        ret unsupportedFileType
      else
        catch (uploadTry file)
              (λ error, queryRollback;; ret internalServerError)
  end.
End handler.

(** *** What the design promises of an upload *)

(** A date [DD/MM/YYYY]. *)
Definition isDMY (dd mm yyyy : string) : Prop :=
  JS.allDigits dd = true ∧ String.length dd = 2%nat
  ∧ JS.allDigits mm = true ∧ String.length mm = 2%nat
  ∧ JS.allDigits yyyy = true ∧ String.length yyyy = 4%nat.

(** A row that supplies the four fields, none of them empty, with a date
    [DD/MM/YYYY]. *)
Definition wellFormed (row : gmap string string) : Prop :=
  ∃ dd mm yyyy h e g,
    isDMY dd mm yyyy
    ∧ row !! "date" = Some (dd +:+ "/" +:+ mm +:+ "/" +:+ yyyy)
    ∧ row !! "hours worked" = Some h ∧ h ≠ EmptyString
    ∧ row !! "employee id" = Some e ∧ e ≠ EmptyString
    ∧ row !! "job group" = Some g ∧ g ≠ EmptyString.

(** [entry] is [row] unchanged but for its date, rewritten from
    [DD/MM/YYYY] to [YYYY-MM-DD], filed under [reportId]. *)
Definition persistedAs (reportId : string) (row : gmap string string)
    (entry : TimekeepingEntry) : Prop :=
  ∃ dd mm yyyy,
    isDMY dd mm yyyy
    ∧ row !! "date" = Some (dd +:+ "/" +:+ mm +:+ "/" +:+ yyyy)
    ∧ date entry = yyyy +:+ "-" +:+ mm +:+ "-" +:+ dd
    ∧ row !! "hours worked" = Some (hours_worked entry)
    ∧ row !! "employee id" = Some (employee_id entry)
    ∧ row !! "job group" = Some (job_group entry)
    ∧ report_id entry = reportId.

(** A row in which every field is blank. *)
Definition blank (row : gmap string string) : Prop :=
  ∀ header value, row !! header = Some value → isBlank value = true.

(** A field that is absent from a row, and one that is absent or empty. *)
Definition absent (field : string) (row : gmap string string) : Prop :=
  row !! field = None.
Definition absentOrEmpty (field : string) (row : gmap string string) : Prop :=
  row !! field = None ∨ row !! field = Some EmptyString.

(** A row that fails to supply one of the four fields, not empty; and a row
    the loop rejects for a missing field: [date] or [job group] absent or
    empty, [hours worked] or [employee id] absent. *)
Definition failsToSupply (row : gmap string string) : Prop :=
  absentOrEmpty "date" row ∨ absentOrEmpty "hours worked" row
  ∨ absentOrEmpty "employee id" row ∨ absentOrEmpty "job group" row.
Definition rejectedForField (row : gmap string string) : Prop :=
  absentOrEmpty "date" row ∨ absent "hours worked" row
  ∨ absent "employee id" row ∨ absentOrEmpty "job group" row.

(** A row passes the validation of the loop when the loop builds a query
    for it. *)
Definition passes (reportId : string) (row : gmap string string) : Prop :=
  ∃ entry, rowToEntry reportId row = inr entry.

(** The store takes the report row of an upload. *)
Definition freshReport (reportId filename : string) (w : World) : Prop :=
  (String.length reportId ≤ 255)%nat ∧ (String.length filename ≤ 255)%nat
  ∧ reportId ∉ (timekeeping_reports w).*1.

(** A staged file that gets as far as the validation of its rows: a [.csv]
    name that carries the identifier [reportId], not yet in the store, and
    the four headers; [results] are its rows that are not blank, and there
    is one at least. *)
Definition reachesRows (file : File) (w : World) (reportId : string)
    (results : list (gmap string string)) : Prop :=
  toLowerCase (extname (originalname file)) = ".csv"
  ∧ matchTimeReport (basename (originalname file) ".csv") = Some reportId
  ∧ freshReport reportId (originalname file) w
  ∧ transaction w = None
  ∧ ∃ csv headers,
      uploads w !! path file = Some csv
      ∧ Upload.headers csv = Some headers
      ∧ Forall (λ header, header ∈ headers) requiredHeaders
      ∧ results = filter (λ row, ¬ blank row) (data csv)
      ∧ results ≠ [].

(** The world in which the rows of an upload are inserted: the report row
    is there, and the transaction remembers the tables as they were. *)
Definition afterBegin (file : File) (w : World) (reportId : string) : World :=
  mkWorld (uploads w)
          (timekeeping_reports w ++ [(reportId, originalname file)])
          (timekeeping_entries w)
          (Some (timekeeping_reports w, timekeeping_entries w)).

(** The world a successful upload leaves: the staged file is gone, the
    report row and the entries are there, no transaction is open. *)
Definition afterUpload (file : File) (w : World) (reportId : string)
    (entries : list TimekeepingEntry) : World :=
  mkWorld (delete (path file) (uploads w))
          (timekeeping_reports w ++ [(reportId, originalname file)])
          (timekeeping_entries w ++ entries)
          None.

(** The two readings of the design that the code does not follow, as they
    are written there.  First: the filename is validated before the
    extension, so that a name whose stem is not [time-report-<digits>] is
    an [InvalidFilenameFormat] whatever its extension. *)
Definition filenameCheckedFirst : Prop :=
  ∀ (accepts : TimekeepingEntry → bool) (file : File) (w : World) (csv : Csv),
    uploads w !! path file = Some csv →
    matchTimeReport (basename (originalname file) (extname (originalname file)))
      = None →
    (upload accepts (Some file) w).2 = inr invalidFilenameFormat.

(** Second: a surviving row that fails to supply one of the four fields,
    not empty, aborts the batch with [MalformedRow] and nothing of the
    upload is persisted. *)
Definition emptyFieldsRejected : Prop :=
  ∀ (accepts : TimekeepingEntry → bool) (file : File) (w : World)
    (reportId : string) (results : list (gmap string string))
    (row : gmap string string),
    reachesRows file w reportId results →
    row ∈ results → failsToSupply row →
    (uploadTry accepts file w).2 = inl MissingFields
    ∧ timekeeping_entries (upload accepts (Some file) w).1 = timekeeping_entries w.

(** *** What the handler keeps *)

(** The world without the staged copy of [file]. *)
Definition removeStaged (file : File) (w : World) : World :=
  mkWorld (delete (path file) (uploads w)) (timekeeping_reports w)
          (timekeeping_entries w) (transaction w).

(** The store as [schema.sql] wants it: no two reports with the same
    [report_id], and every entry filed under a report that exists. *)
Definition consistent (w : World) : Prop :=
  NoDup (timekeeping_reports w).*1
  ∧ Forall (λ entry, report_id entry ∈ (timekeeping_reports w).*1)
           (timekeeping_entries w).

(** The responses the handler sends after removing the staged file, short of
    success. *)
Definition refusals : list Response :=
  [unsupportedFileType; invalidFilenameFormat; duplicateReport; emptyFile].

End Upload.

(** ** Sample uploads *)

Module Sample.
Import Upload.

Definition row (d h e g : string) : gmap string string :=
  {[ "date" := d; "hours worked" := h; "employee id" := e; "job group" := g ]}.

Definition csv (rows : list (gmap string string)) : Csv :=
  mkCsv (Some ["date"; "hours worked"; "employee id"; "job group"]) rows.

(** Two good rows around a blank one. *)
Definition rows : list (gmap string string) :=
  [row "14/11/2023" "7.5" "1" "A"; row "" " " "" ""; row "09/11/2023" "4" "2" "B"].

(** A row with its hours present but empty, and a row without job group. *)
Definition rowsEmptyHours : list (gmap string string) :=
  [row "14/11/2023" "" "1" "A"].
Definition rowsNoJobGroup : list (gmap string string) :=
  [row "14/11/2023" "7.5" "1" "A"; row "09/11/2023" "4" "2" ""].

(** A file whose header line lacks [job group]. *)
Definition csvNoJobGroup : Csv :=
  mkCsv (Some ["date"; "hours worked"; "employee id"])
        [{[ "date" := "14/11/2023"; "hours worked" := "7.5"; "employee id" := "1" ]}].

(** A store that holds nothing but one staged file, and one that holds
    two. *)
Definition world (c : Csv) : World :=
  mkWorld {[ "uploads/1" := c ]} [] [] None.
Definition world2 (c1 c2 : Csv) : World :=
  mkWorld {[ "uploads/1" := c1; "uploads/2" := c2 ]} [] [] None.

Definition file (name : string) : File := mkFile name "uploads/1".
Definition file2 (name : string) : File := mkFile name "uploads/2".

Definition acceptAll (entry : TimekeepingEntry) : bool := true.

End Sample.

(** ** Database set-up: [ensure.js] and [schema.sql] *)

Module Ensure.

(** A database of the server, as far as [schema.sql] goes: the names of its
    tables and of its indexes. *)
Record Database := mkDatabase {
  tables : gset string;
  indexes : gset string
}.

(** The server: the password of each role, and the databases by name. *)
Record Server := mkServer {
  roles : gmap string string;
  databases : gmap string Database
}.

(** How a function of [ensure.js] ends: it returns, or it calls
    [process.exit]. *)
Inductive Outcome :=
  | Returned
  | Exit (code : Z).

Definition targetDB : string := "timekeeping".

(** [client.connect()]: the role must exist with that password, and the
    database must exist. *)
Definition connect (user password database : string) (s : Server) : bool :=
  bool_decide (roles s !! user = Some password)
  && bool_decide (is_Some (databases s !! database)).

(** The statements of [schema.sql]. *)
Inductive Statement :=
  | CreateTableIfNotExists (name : string) (references : option string)
  | CreateIndexIfNotExists (name table : string).

Definition schemaSQL : list Statement :=
  [CreateTableIfNotExists "timekeeping_reports" None;
   CreateIndexIfNotExists "idx_report_id" "timekeeping_reports";
   CreateTableIfNotExists "timekeeping_entries" (Some "timekeeping_reports");
   CreateIndexIfNotExists "idx_timekeeping_report_id" "timekeeping_entries";
   CreateIndexIfNotExists "idx_timekeeping_employee_id" "timekeeping_entries"].

(** One statement: nothing happens when the name is taken; otherwise the
    table referenced, or indexed, must exist. *)
Definition execute (st : Statement) (db : Database) : option Database :=
  match st with
  | CreateTableIfNotExists name references =>
      if decide (name ∈ tables db) then Some db
      else
        match references with
        | Some other =>
            if decide (other ∈ tables db)
            then Some (mkDatabase ({[ name ]} ∪ tables db) (indexes db))
            else None
        | None => Some (mkDatabase ({[ name ]} ∪ tables db) (indexes db))
        end
  | CreateIndexIfNotExists name table =>
      if decide (name ∈ indexes db) then Some db
      else if decide (table ∈ tables db)
           then Some (mkDatabase (tables db) ({[ name ]} ∪ indexes db))
           else None
  end.

(** [schemaClient.query(schemaSQL)]: the statements in order, all or
    nothing. *)
Fixpoint executeAll (sts : list Statement) (db : Database) : option Database :=
  match sts with
  | [] => Some db
  | st :: rest =>
      match execute st db with
      | Some db' => executeAll rest db'
      | None => None
      end
  end.

(** Whether the name a statement wants to create is there. *)
Definition names (st : Statement) (db : Database) : Prop :=
  match st with
  | CreateTableIfNotExists name _ => name ∈ tables db
  | CreateIndexIfNotExists name _ => name ∈ indexes db
  end.

(** [checkAndCreateDatabase()]. *)
Definition checkAndCreateDatabase (s : Server) : Server * Outcome :=
  if connect "postgres" "password" "postgres" s then
    (* SELECT 1 FROM pg_database WHERE datname = $1 *)
    let rowCount : Z := if databases s !! targetDB is Some _ then 1 else 0 in
    if decide (rowCount = 0) then
      (* CREATE DATABASE timekeeping OWNER admin: the role must exist *)
      if decide (is_Some (roles s !! "admin")) then
        (mkServer (roles s) (<[ targetDB := mkDatabase ∅ ∅ ]> (databases s)),
         Returned)
      else (s, Exit 1)
    else (s, Returned)
  else (s, Exit 1).

(** [applySchema()]. *)
Definition applySchema (s : Server) : Server * Outcome :=
  if connect "admin" "timekeeper_pass" targetDB s then
    match databases s !! targetDB with
    | Some db =>
        match executeAll schemaSQL db with
        | Some db' =>
            (mkServer (roles s) (<[ targetDB := db' ]> (databases s)), Returned)
        | None => (s, Exit 1)
        end
    | None => (s, Exit 1)
    end
  else (s, Exit 1).

(** [main()]. *)
Definition main (s : Server) : Server * Outcome :=
  match checkAndCreateDatabase s with
  | (s', Returned) => applySchema s'
  | (s', Exit code) => (s', Exit code)
  end.


(** A server on which the set-up can run: the two roles with the passwords
    of the script, and the management database. *)
Definition ready (s : Server) : Prop :=
  roles s !! "postgres" = Some "password"
  ∧ roles s !! "admin" = Some "timekeeper_pass"
  ∧ is_Some (databases s !! "postgres").

(** A sample server, fresh from its installation but for the role [admin]. *)
Definition freshServer : Server :=
  mkServer {[ "postgres" := "password"; "admin" := "timekeeper_pass" ]}
           {[ "postgres" := mkDatabase ∅ ∅ ]}.

End Ensure.

(** * Properties *)

(** ** The scenarios of the test suite *)

(** [report.test.js]: four rows, three lines. *)
Example report_scenario :
  Report.reportHandler
    (Some [Report.mkRow (mkDate 2023 0 4) 1000 1 "A";
           Report.mkRow (mkDate 2023 0 14) 500 1 "A";
           Report.mkRow (mkDate 2023 0 20) 300 2 "B";
           Report.mkRow (mkDate 2023 0 20) 400 1 "A"])
  = mkResponse 200
      (ReportBody
         [mkEntry "1" (mkPayPeriod "2023-01-01" "2023-01-15") "$450.00";
          mkEntry "1" (mkPayPeriod "2023-01-16" "2023-01-31") "$120.00";
          mkEntry "2" (mkPayPeriod "2023-01-16" "2023-01-31") "$60.00"]).
Proof. vm_compute. reflexivity. Qed.

Example report_empty :
  Report.reportHandler (Some []) = mkResponse 200 (ReportBody []).
Proof. reflexivity. Qed.

Example report_store_failure :
  Report.reportHandler None = mkResponse 500 (ErrorBody "Internal server error").
Proof. reflexivity. Qed.

(** Employees are ordered as numbers: 9 before 10. *)
Example report_numeric_order :
  employeeId <$> Report.report
    [Report.mkRow (mkDate 2023 0 4) 100 10 "A";
     Report.mkRow (mkDate 2023 0 4) 100 9 "A"]
  = ["9"; "10"].
Proof. vm_compute. reflexivity. Qed.

(** [upload.test.js]: a valid file, a file with headers only, no file, and
    a file that is not a CSV. *)
Example upload_valid_file :
  (Upload.upload Sample.acceptAll (Some (Sample.file "time-report-1.csv"))
     (Sample.world (Sample.csv Sample.rows))).2 = inr Upload.stored.
Proof. vm_compute. reflexivity. Qed.

Example upload_headers_only :
  (Upload.upload Sample.acceptAll (Some (Sample.file "time-report-2.csv"))
     (Sample.world (Sample.csv []))).2 = inr Upload.emptyFile.
Proof. vm_compute. reflexivity. Qed.

Example upload_no_file :
  (Upload.upload Sample.acceptAll None (Sample.world (Sample.csv []))).2
  = inr Upload.noFileProvided.
Proof. reflexivity. Qed.

Example upload_txt_file :
  (Upload.upload Sample.acceptAll (Some (Sample.file "time-report-3.txt"))
     (Sample.world (Sample.csv Sample.rows))).2 = inr Upload.unsupportedFileType.
Proof. vm_compute. reflexivity. Qed.

(** The resolver on a leap-year February, and on years that are not written
    with four digits. *)
Example getPayPeriod_leap_february :
  getPayPeriod (mkDate 2024 1 20) = mkPayPeriod "2024-02-16" "2024-02-29".
Proof. vm_compute. reflexivity. Qed.

Example getPayPeriod_year_10000 :
  getPayPeriod (mkDate 10000 0 20) = mkPayPeriod "10000-01-16" "10000-01-31".
Proof. vm_compute. reflexivity. Qed.

(** ** Decimal rendering and reading *)

Section decimal.
Local Open Scope Z_scope.

Lemma digit_pretty_N_char (x : N) :
  (x < 10)%N → JS.digit (pretty_N_char x) = Some (Z.of_N x).
Proof.
  intros Hx.
  assert (x = 0 ∨ x = 1 ∨ x = 2 ∨ x = 3 ∨ x = 4 ∨ x = 5 ∨ x = 6 ∨ x = 7
          ∨ x = 8 ∨ x = 9)%N as Hc by lia.
  destruct Hc as [->|[->|[->|[->|[->|[->|[->|[->|[->| ->]]]]]]]]]; reflexivity.
Qed.

Lemma digit_isDigit c d : JS.digit c = Some d → JS.isDigit c = true.
Proof. unfold JS.isDigit. by intros ->. Qed.

Lemma digit_range c d : JS.digit c = Some d → 0 ≤ d ≤ 9.
Proof.
  unfold JS.digit. intros H.
  destruct (Z.leb_spec 48 (Z.of_nat (nat_of_ascii c))),
    (Z.leb_spec (Z.of_nat (nat_of_ascii c)) 57); simplify_eq/=; lia.
Qed.

Lemma digits_go_pretty_N_go (x : N) (s : string) :
  JS.digits_go 0 (pretty_N_go x s) = JS.digits_go (Z.of_N x) s.
Proof.
  revert s. induction (N.lt_wf_0 x) as [x _ IH]. intros s.
  destruct (decide (x = 0%N)) as [->|Hx]; [done|].
  rewrite pretty_N_go_step by lia.
  rewrite IH by (apply N.div_lt; lia). simpl.
  rewrite digit_pretty_N_char by (apply N.mod_lt; lia).
  f_equal. rewrite (N.div_mod x 10) at 3 by lia. lia.
Qed.

Lemma allDigits_pretty_N_go (x : N) (s : string) :
  JS.allDigits (pretty_N_go x s) = JS.allDigits s.
Proof.
  revert s. induction (N.lt_wf_0 x) as [x _ IH]. intros s.
  destruct (decide (x = 0%N)) as [->|Hx]; [done|].
  rewrite pretty_N_go_step by lia.
  rewrite IH by (apply N.div_lt; lia). simpl.
  by rewrite (digit_isDigit _ _ (digit_pretty_N_char _ (N.mod_lt x 10 ltac:(lia)))).
Qed.

Lemma pretty_N_go_length (x : N) (s : string) :
  (String.length s ≤ String.length (pretty_N_go x s))%nat.
Proof.
  revert s. induction (N.lt_wf_0 x) as [x _ IH]. intros s.
  destruct (decide (x = 0%N)) as [->|Hx]; [done|].
  rewrite pretty_N_go_step by lia.
  etrans; [|apply IH, N.div_lt; lia]. simpl. lia.
Qed.

Lemma pretty_N_nonempty (x : N) : pretty x ≠ EmptyString.
Proof.
  unfold pretty, pretty_N. case_decide; [done|].
  rewrite pretty_N_go_step by lia. intros Heq.
  pose proof (pretty_N_go_length (x `div` 10)
                (String (pretty_N_char (x `mod` 10)) "")) as Hl.
  rewrite Heq in Hl. simpl in Hl. lia.
Qed.

Lemma allDigits_pretty_N (x : N) : JS.allDigits (pretty x) = true.
Proof.
  unfold pretty, pretty_N. case_decide; [done|].
  by rewrite allDigits_pretty_N_go.
Qed.

Lemma digits_pretty_N (x : N) : JS.digits (pretty x) = Some (Z.of_N x).
Proof.
  pose proof (pretty_N_nonempty x) as Hne.
  unfold JS.digits. destruct (pretty x) eqn:E; [done|]. rewrite <-E.
  unfold pretty, pretty_N. case_decide; [by subst|].
  by rewrite digits_go_pretty_N_go.
Qed.
End decimal.

Section decimal_more.
Local Open Scope Z_scope.

Lemma pretty_Z_nonneg (z : Z) : 0 ≤ z → pretty z = pretty (Z.to_N z).
Proof. destruct z; [done|done|lia]. Qed.

Lemma pretty_Z_neg (z : Z) : z < 0 → pretty z = String "-" (pretty (Z.to_N (- z))).
Proof. destruct z; [lia|lia|done]. Qed.




(** Renderings of fixed width. *)
Lemma pretty_N_go_1 (x : N) (s : string) :
  (0 < x < 10)%N → pretty_N_go x s = String (pretty_N_char x) s.
Proof.
  intros Hx. rewrite pretty_N_go_step by lia.
  rewrite N.div_small, N.mod_small by lia. done.
Qed.

Lemma pretty_N_go_2 (x : N) (s : string) :
  (10 ≤ x < 100)%N →
  pretty_N_go x s
  = String (pretty_N_char (x `div` 10)) (String (pretty_N_char (x `mod` 10)) s).
Proof.
  intros Hx. rewrite pretty_N_go_step by lia.
  apply pretty_N_go_1. split.
  - apply N.div_str_pos. lia.
  - apply N.Div0.div_lt_upper_bound. lia.
Qed.

Lemma pretty_N_go_4 (x : N) (s : string) :
  (1000 ≤ x < 10000)%N →
  ∃ a b c d, pretty_N_go x s = String a (String b (String c (String d s))).
Proof.
  intros Hx. rewrite 2!pretty_N_go_step.
  - rewrite pretty_N_go_2; [by eauto|]. split.
    + apply N.div_le_lower_bound; [done|]. apply N.div_le_lower_bound; lia.
    + apply N.Div0.div_lt_upper_bound, N.Div0.div_lt_upper_bound. lia.
  - apply N.div_str_pos. lia.
  - lia.
Qed.

Lemma pretty_N_unfold (x : N) : x ≠ 0%N → pretty x = pretty_N_go x "".
Proof. intros Hx. unfold pretty, pretty_N. by rewrite decide_False. Qed.

Lemma pretty_one_digit (n : Z) :
  0 ≤ n ≤ 9 → ∃ a, pretty n = String a "" ∧ JS.digits (String a "") = Some n.
Proof.
  intros Hn. rewrite pretty_Z_nonneg by lia.
  pose proof (digits_pretty_N (Z.to_N n)) as Hd.
  destruct (decide (Z.to_N n = 0%N)) as [H0|H0].
  - rewrite H0 in *. exists "0"%char. split; [done|].
    change (pretty 0%N) with "0" in Hd. rewrite Hd. f_equal. lia.
  - rewrite pretty_N_unfold, pretty_N_go_1 in * by lia. eexists. split; [done|].
    rewrite Hd. f_equal. lia.
Qed.

Lemma pretty_two_digits (n : Z) :
  10 ≤ n ≤ 99 →
  ∃ a b, pretty n = String a (String b "")
         ∧ JS.digits (String a (String b "")) = Some n
         ∧ JS.isDigit b = true.
Proof.
  intros Hn. rewrite pretty_Z_nonneg by lia.
  pose proof (digits_pretty_N (Z.to_N n)) as Hd.
  pose proof (allDigits_pretty_N (Z.to_N n)) as Ha.
  rewrite pretty_N_unfold, pretty_N_go_2 in * by lia. do 2 eexists.
  split; [done|]. split.
  - rewrite Hd. f_equal. lia.
  - simpl in Ha. by repeat (apply andb_prop in Ha as [? Ha]).
Qed.

Lemma pretty_four_digits (n : Z) :
  1000 ≤ n ≤ 9999 →
  ∃ a b c d, pretty n = String a (String b (String c (String d "")))
             ∧ JS.digits (String a (String b (String c (String d "")))) = Some n.
Proof.
  intros Hn. rewrite pretty_Z_nonneg by lia.
  pose proof (digits_pretty_N (Z.to_N n)) as Hd.
  rewrite pretty_N_unfold in * by lia.
  destruct (pretty_N_go_4 (Z.to_N n) "") as (a & b & c & d & Heq); [lia|].
  rewrite Heq in *. exists a, b, c, d. split; [done|]. rewrite Hd. f_equal. lia.
Qed.

Lemma padStart2_two_digits (n : Z) :
  0 ≤ n ≤ 99 →
  ∃ a b, JS.padStart2 (pretty n) = String a (String b "")
         ∧ JS.digits (String a (String b "")) = Some n
         ∧ JS.isDigit b = true.
Proof.
  intros Hn. destruct (decide (n ≤ 9)) as [H9|H9].
  - destruct (pretty_one_digit n) as (a & -> & Hd); [lia|].
    exists "0"%char, a. split; [done|]. split.
    + revert Hd. unfold JS.digits. simpl. destruct (JS.digit a); [|done].
      intros [= <-]. done.
    + revert Hd. unfold JS.digits, JS.isDigit. simpl. by destruct (JS.digit a).
  - destruct (pretty_two_digits n) as (a & b & -> & Hd & Hb); [lia|].
    by exists a, b.
Qed.
End decimal_more.

(** ** The pay-period resolver *)

Section resolver.
Local Open Scope Z_scope.

Lemma daysInMonth_range (y m : Z) : 28 ≤ JS.daysInMonth y m ≤ 31.
Proof.
  unfold JS.daysInMonth. repeat case_match; lia.
Qed.

Lemma Date_day0_getDate_month (y m : Z) :
  1 ≤ m ≤ 12 → (y < 0 ∨ 99 < y) →
  JS.Date_day0_getDate y m = JS.daysInMonth y m.
Proof.
  intros Hm Hy. unfold JS.Date_day0_getDate, JS.Date_full_year.
  replace ((0 <=? y) && (y <=? 99)) with false
    by (symmetry; apply andb_false_iff; lia).
  rewrite Z.div_small, Z.mod_small by lia. f_equal; lia.
Qed.

(** The boundaries of a period, spelled out character by character. *)
Lemma getPayPeriod_shape (d : Date) :
  0 ≤ getMonth d ≤ 11 →
  ∃ m1 m2 s1 s2 e1 e2,
    let mm := String m1 (String m2 "") in
    let ss := String s1 (String s2 "") in
    let ee := String e1 (String e2 "") in
    startDate (getPayPeriod d)
      = pretty (getFullYear d) +:+ String "-" (String m1 (String m2 (String "-" ss)))
    ∧ endDate (getPayPeriod d)
      = pretty (getFullYear d) +:+ String "-" (String m1 (String m2 (String "-" ee)))
    ∧ JS.digits mm = Some (getMonth d + 1)
    ∧ JS.digits ss = Some (if decide (getDate d ≤ 15) then 1 else 16)
    ∧ JS.digits ee
      = Some (if decide (getDate d ≤ 15) then 15
              else JS.Date_day0_getDate (getFullYear d) (getMonth d + 1))
    ∧ JS.isDigit s2 = true.
Proof.
  intros Hm.
  destruct (padStart2_two_digits (getMonth d + 1)) as (m1 & m2 & Hmm & Hmd & _);
    [lia|].
  unfold getPayPeriod. exists m1, m2.
  destruct (Z.leb_spec (getDate d) 15) as [Hd|Hd].
  - exists "0"%char, "1"%char, "1"%char, "5"%char. cbn zeta.
    rewrite Hmm, !decide_True by done. done.
  - pose proof (daysInMonth_range
      (JS.Date_full_year (getFullYear d) + (getMonth d + 1 - 1) `div` 12)
      ((getMonth d + 1 - 1) `mod` 12 + 1)) as Hr.
    destruct (pretty_two_digits
                (JS.Date_day0_getDate (getFullYear d) (getMonth d + 1)))
      as (e1 & e2 & He & Hed & _); [unfold JS.Date_day0_getDate; lia|].
    exists "1"%char, "6"%char, e1, e2. cbn zeta.
    rewrite Hmm, He, !decide_False by lia. done.
Qed.

Lemma iso_fields_intro (y m d : Z) a b c e m1 m2 d1 d2 :
  JS.digits (String a (String b (String c (String e "")))) = Some y →
  JS.digits (String m1 (String m2 "")) = Some m →
  JS.digits (String d1 (String d2 "")) = Some d →
  JS.iso_fields
    (String a (String b (String c (String e "")))
     +:+ String "-" (String m1 (String m2 (String "-" (String d1 (String d2 ""))))))
  = Some (y, m, d).
Proof.
  intros Hy Hm Hd. cbv [String.append JS.iso_fields].
  rewrite Hy, Hm, Hd. done.
Qed.
End resolver.

(** C2, as amended.  For every date whose year has four digits (1000 to
    9999), [getPayPeriod] returns two date-only ISO strings of the year and
    month of the date: the 1st and the 15th when its day is at most 15, the
    16th and the last calendar day of the month otherwise (28, 29, 30 or 31,
    February of leap years included); the day of the date lies between the
    two boundaries, which lie within its month. *)
Theorem getPayPeriod_resolves (d : Date) :
  valid_date d → 1000 ≤ getFullYear d ≤ 9999 → resolves d.
Proof.
  intros [Hm Hd] Hy.
  destruct (getPayPeriod_shape d Hm)
    as (m1 & m2 & s1 & s2 & e1 & e2 & Hs & He & Hmm & Hss & Hee & _).
  destruct (pretty_four_digits (getFullYear d) Hy) as (a & b & c & e & Hp & Hyy).
  unfold resolves. cbn zeta in *. rewrite Hs, He, Hp.
  do 2 eexists. split; [by apply iso_fields_intro|].
  split; [by apply iso_fields_intro|].
  rewrite Date_day0_getDate_month by lia.
  pose proof (daysInMonth_range (getFullYear d) (getMonth d + 1)).
  case_decide; lia.
Qed.

Lemma getPayPeriod_resolves_witness :
  valid_date (mkDate 2024 1 20) ∧ resolves (mkDate 2024 1 20).
Proof.
  assert (valid_date (mkDate 2024 1 20)) as Hv.
  { split; [simpl; lia|]. vm_compute. split; discriminate. }
  split; [exact Hv|].
  apply getPayPeriod_resolves; [exact Hv|]. simpl. lia.
Defined.

(** C2, as stated, fails on a year below 1000: the year is written without
    padding, so the boundaries are not [YYYY-MM-DD] strings. *)
Lemma getPayPeriod_year_999 :
  valid_date (mkDate 999 2 10) ∧ ¬ resolves (mkDate 999 2 10).
Proof.
  split.
  - split; [simpl; lia|]. vm_compute. split; discriminate.
  - intros (s & e & Hs & _). vm_compute in Hs. discriminate.
Qed.

(** ** Strings as lists of characters *)

Section chars.
Local Abbreviation chars := String.list_ascii_of_string.

Lemma chars_app (s t : string) : chars (s +:+ t) = chars s ++ chars t.
Proof. induction s as [|c s IH]; [done|]. simpl. by rewrite IH. Qed.

Lemma chars_inj (s t : string) : chars s = chars t → s = t.
Proof.
  intros H. rewrite <-(String.string_of_list_ascii_of_string s),
    <-(String.string_of_list_ascii_of_string t). by rewrite H.
Qed.

Lemma allDigits_chars (s : string) :
  JS.allDigits s = true ↔ Forall (λ c, JS.isDigit c = true) (chars s).
Proof.
  induction s as [|c s IH]; simpl.
  - split; [constructor|done].
  - rewrite andb_true_iff, Forall_cons, IH. done.
Qed.

Lemma last_elem_of {A} (l : list A) (x : A) : last l = Some x → x ∈ l.
Proof.
  intros H. apply last_Some in H as [l' ->]. apply elem_of_app. right. left.
Qed.

(** A minus sign occurs in the rendering of an integer at most as its
    first character. *)
Lemma pretty_Z_dash (z : Z) (P Q : list ascii) :
  chars (pretty z) = P ++ Q → last P = Some "-"%char → P = ["-"%char].
Proof.
  intros Heq Hlast.
  assert (∀ l : list ascii,
            Forall (λ c, JS.isDigit c = true) l → "-"%char ∈ l → False) as Hno.
  { intros l Hl Hin. rewrite Forall_forall in Hl. by apply Hl in Hin. }
  destruct (decide (0 ≤ z)%Z) as [Hz|Hz].
  - rewrite pretty_Z_nonneg in Heq by done.
    pose proof (allDigits_pretty_N (Z.to_N z)) as Hd.
    apply allDigits_chars in Hd. rewrite Heq in Hd.
    apply Forall_app in Hd as [Hd _].
    destruct (Hno P Hd). by apply last_elem_of.
  - rewrite pretty_Z_neg in Heq by lia. simpl in Heq.
    pose proof (allDigits_pretty_N (Z.to_N (- z))) as Hd.
    apply allDigits_chars in Hd.
    destruct P as [|p P]; [done|]. simplify_eq/=.
    destruct P as [|p' P]; [done|]. exfalso.
    rewrite H0 in Hd. apply Forall_app in Hd as [Hd _].
    apply (Hno _ Hd). apply last_elem_of. by rewrite <-Hlast.
Qed.

Lemma app_longer_suffix {A} (a a' y y' : list A) :
  a ++ y = a' ++ y' → (length y < length y')%nat →
  ∃ p, p ≠ [] ∧ y' = p ++ y ∧ a = a' ++ p.
Proof.
  intros Heq Hlen. apply app_eq_inv in Heq as [(k & -> & ->)|(k & -> & ->)].
  - exists k. split; [|done]. intros ->. simpl in Hlen. lia.
  - rewrite length_app in Hlen. lia.
Qed.
End chars.

(** ** Keys of the accumulator *)

Section keys.
Local Abbreviation chars := String.list_ascii_of_string.
Local Open Scope Z_scope.

(** The characters of a key: the employee, then twice the year, each
    followed by seven, respectively six, characters of month and day. *)
Lemma keyOf_chars (i : Z) (d : Date) :
  0 ≤ getMonth d ≤ 11 →
  ∃ m1 m2 s1 s2 e1 e2 : ascii,
    JS.isDigit s2 = true
    ∧ chars (startDate (getPayPeriod d))
      = chars (pretty (getFullYear d)) ++ ["-"; m1; m2; "-"; s1; s2]%char
    ∧ chars (endDate (getPayPeriod d))
      = chars (pretty (getFullYear d)) ++ ["-"; m1; m2; "-"; e1; e2]%char
    ∧ chars (Report.keyOf i (getPayPeriod d))
      = ((chars (pretty i) ++ ["-"%char]) ++ chars (pretty (getFullYear d))
         ++ ["-"; m1; m2; "-"; s1; s2; "-"]%char)
        ++ chars (pretty (getFullYear d)) ++ ["-"; m1; m2; "-"; e1; e2]%char.
Proof.
  intros Hm.
  destruct (getPayPeriod_shape d Hm)
    as (m1 & m2 & s1 & s2 & e1 & e2 & Hs & He & _ & _ & _ & Hs2).
  cbn zeta in Hs, He. exists m1, m2, s1, s2, e1, e2.
  unfold Report.keyOf. rewrite Hs, He, !chars_app. simpl.
  rewrite <-!app_assoc. done.
Qed.

Lemma key_year_length (a a' y y' t t' : list ascii) (s2 : ascii) (z' : Z) :
  JS.isDigit s2 = true →
  y' = chars (pretty z') →
  (a ++ y ++ t ++ [s2; "-"%char]) ++ y = (a' ++ y' ++ t' ++ ["-"%char]) ++ y' →
  ¬ (length y < length y')%nat.
Proof.
  intros Hs2 Hy' Heq Hlen.
  apply app_longer_suffix in Heq as (p & Hp & Hyp & Ha); [|done].
  destruct p as [|c p _] using rev_ind; [done|].
  assert (c = "-"%char) as ->.
  { change [s2; "-"%char] with ([s2] ++ ["-"%char]) in Ha.
    rewrite !app_assoc in Ha. apply app_inj_2 in Ha as [_ Ha]; [|done].
    by simplify_eq. }
  assert (p ++ ["-"%char] = ["-"%char]) as Hp'.
  { eapply pretty_Z_dash; [by rewrite <-Hy', Hyp|]. apply last_snoc. }
  destruct p as [|? p]; [|by destruct p]. simpl in Ha.
  change [s2; "-"%char] with ([s2] ++ ["-"%char]) in Ha.
  rewrite !app_assoc in Ha.
  apply app_inj_2 in Ha as [Ha _]; [|done].
  apply app_inj_2 in Ha as [_ Ha]; [|done].
  by simplify_eq.
Qed.

Lemma keyOf_inj (i i' : Z) (d d' : Date) :
  0 ≤ getMonth d ≤ 11 → 0 ≤ getMonth d' ≤ 11 →
  Report.keyOf i (getPayPeriod d) = Report.keyOf i' (getPayPeriod d') →
  i = i' ∧ getPayPeriod d = getPayPeriod d'.
Proof.
  intros Hm Hm' Hkey. apply (f_equal chars) in Hkey.
  destruct (keyOf_chars i d Hm)
    as (m1 & m2 & s1 & s2 & e1 & e2 & Hs2 & Hs & He & Hk).
  destruct (keyOf_chars i' d' Hm')
    as (m1' & m2' & s1' & s2' & e1' & e2' & Hs2' & Hs' & He' & Hk').
  rewrite Hk, Hk' in Hkey. clear Hk Hk'.
  rewrite !(app_assoc _ _ [_; _; _; _; _; _]) in Hkey.
  apply app_inj_2 in Hkey as [Hkey Hu]; [|done].
  assert (length (chars (pretty (getFullYear d)))
          = length (chars (pretty (getFullYear d')))) as Hlen.
  { destruct (Nat.lt_trichotomy (length (chars (pretty (getFullYear d))))
                (length (chars (pretty (getFullYear d'))))) as [Hlt|[?|Hlt]];
      [exfalso|done|exfalso].
    - apply (key_year_length (chars (pretty i) ++ ["-"%char])
               (chars (pretty i') ++ ["-"%char])
               (chars (pretty (getFullYear d))) (chars (pretty (getFullYear d')))
               ["-"; m1; m2; "-"; s1]%char ["-"; m1'; m2'; "-"; s1'; s2']%char
               s2 (getFullYear d') Hs2 eq_refl); [|exact Hlt].
      rewrite <-!app_assoc in Hkey. rewrite <-!app_assoc. exact Hkey.
    - apply (key_year_length (chars (pretty i') ++ ["-"%char])
               (chars (pretty i) ++ ["-"%char])
               (chars (pretty (getFullYear d'))) (chars (pretty (getFullYear d)))
               ["-"; m1'; m2'; "-"; s1']%char ["-"; m1; m2; "-"; s1; s2]%char
               s2' (getFullYear d) Hs2' eq_refl); [|exact Hlt].
      rewrite <-!app_assoc in Hkey. rewrite <-!app_assoc. symmetry. exact Hkey. }
  apply app_inj_2 in Hkey as [Hkey Hy]; [|done].
  rewrite !app_assoc in Hkey.
  apply app_inj_2 in Hkey as [Hkey Ht]; [|done].
  rewrite Hy in Hkey. apply app_inv_tail in Hkey.
  apply app_inv_tail in Hkey.
  split.
  - apply (inj pretty). by apply chars_inj.
  - assert (startDate (getPayPeriod d) = startDate (getPayPeriod d')) as E1.
    { apply chars_inj. rewrite Hs, Hs', Hy. f_equal. by simplify_eq. }
    assert (endDate (getPayPeriod d) = endDate (getPayPeriod d')) as E2.
    { apply chars_inj. rewrite He, He', Hy. f_equal. by simplify_eq. }
    destruct (getPayPeriod d), (getPayPeriod d'). simpl in *. by subst.
Qed.
End keys.

(** ** The accumulator of the report *)

Section accumulator.
Import Report.
Local Open Scope Z_scope.

Lemma obj_get_set_eq (k : string) (v : Acc) (obj : PayData) :
  obj_get k (obj_set k v obj) = Some v.
Proof.
  induction obj as [|[k' w] obj IH]; simpl.
  - by rewrite decide_True.
  - destruct (decide (k' = k)) as [->|Hne]; simpl.
    + by rewrite decide_True.
    + by rewrite decide_False.
Qed.

Lemma obj_get_set_ne (k k' : string) (v : Acc) (obj : PayData) :
  k ≠ k' → obj_get k' (obj_set k v obj) = obj_get k' obj.
Proof.
  intros Hne. induction obj as [|[k0 w] obj IH]; simpl.
  - by rewrite decide_False.
  - destruct (decide (k0 = k)) as [->|Hne0]; simpl.
    + by rewrite !decide_False.
    + by rewrite IH.
Qed.

Lemma obj_set_keys (k : string) (v : Acc) (obj : PayData) :
  (obj_set k v obj).*1
  = match obj_get k obj with Some _ => obj.*1 | None => obj.*1 ++ [k] end.
Proof.
  induction obj as [|[k0 w] obj IH]; csimpl; [done|].
  destruct (decide (k0 = k)) as [->|Hne]; csimpl; [done|].
  rewrite IH. by destruct (obj_get k obj).
Qed.

Lemma obj_get_None (k : string) (obj : PayData) :
  obj_get k obj = None ↔ k ∉ obj.*1.
Proof.
  induction obj as [|[k0 w] obj IH]; simpl.
  - split; [intros _; apply not_elem_of_nil|done].
  - rewrite not_elem_of_cons. destruct (decide (k0 = k)) as [->|Hne].
    + split; [done|]. by intros [? _].
    + rewrite IH. split; [done|]. by intros [_ ?].
Qed.

Lemma obj_get_elem_of (k : string) (v : Acc) (obj : PayData) :
  NoDup obj.*1 → (k, v) ∈ obj ↔ obj_get k obj = Some v.
Proof.
  induction obj as [|[k0 w] obj IH]; simpl; intros Hnd.
  - split; [by intros ?%elem_of_nil|done].
  - apply NoDup_cons in Hnd as [Hk0 Hnd]. rewrite elem_of_cons.
    destruct (decide (k0 = k)) as [->|Hne].
    + split.
      * intros [[= ->]|Hin]; [done|]. destruct Hk0.
        apply list_elem_of_fmap. by exists (k, v).
      * intros [= ->]. by left.
    + rewrite <-IH by done. split; [|by right].
      intros [[= ? ?]|?]; [by subst|done].
Qed.

(** One step of the loop, seen through the lookups of the object. *)
Lemma accumulateRow_get (obj : PayData) (r : Row) (k : string) :
  obj_get k (accumulateRow obj r)
  = if decide (rowKey r = k) then
      Some match obj_get k obj with
           | Some e => mkEntry (employeeId e) (payPeriod e)
                               (JS.add (amountPaid e) (pay r))
           | None => mkEntry (employee_id r) (getPayPeriod (date r))
                             (JS.add (JS.Num 0) (pay r))
           end
    else obj_get k obj.
Proof.
  unfold accumulateRow. fold (rowKey r). fold (pay r).
  destruct (obj_get (rowKey r) obj) as [[i p a]|] eqn:Hget.
  - rewrite Hget. case_decide as Hk.
    + subst k. by rewrite obj_get_set_eq, Hget.
    + by rewrite obj_get_set_ne.
  - rewrite obj_get_set_eq. case_decide as Hk.
    + subst k. by rewrite obj_get_set_eq, Hget.
    + by rewrite !obj_get_set_ne.
Qed.

Lemma accumulateRow_keys (obj : PayData) (r : Row) :
  (accumulateRow obj r).*1
  = match obj_get (rowKey r) obj with
    | Some _ => obj.*1
    | None => obj.*1 ++ [rowKey r]
    end.
Proof.
  unfold accumulateRow. fold (rowKey r).
  destruct (obj_get (rowKey r) obj) as [[i p a]|] eqn:Hget.
  - by rewrite Hget, obj_set_keys, Hget.
  - rewrite obj_get_set_eq, obj_set_keys, obj_get_set_eq, obj_set_keys, Hget.
    done.
Qed.

Lemma accumulate_snoc (rows : list Row) (r : Row) :
  accumulate (rows ++ [r]) = accumulateRow (accumulate rows) r.
Proof. unfold accumulate. by rewrite fold_left_app. Qed.

Lemma accumulate_NoDup (rows : list Row) : NoDup (accumulate rows).*1.
Proof.
  induction rows as [|r rows IH] using rev_ind; [constructor|].
  rewrite accumulate_snoc, accumulateRow_keys.
  destruct (obj_get (rowKey r) (accumulate rows)) eqn:Hget; [done|].
  apply NoDup_app. split_and!; [done| |apply NoDup_singleton].
  intros k Hk ->%list_elem_of_singleton. by apply obj_get_None in Hget.
Qed.

(** The entry found under a key after the loop: the employee and period of
    the first row with that key, and the pays of all rows with that key,
    added from left to right. *)
Lemma accumulate_get (rows : list Row) (k : string) :
  obj_get k (accumulate rows)
  = match filter (λ r, rowKey r = k) rows with
    | [] => None
    | r0 :: g =>
        Some (mkEntry (employee_id r0) (getPayPeriod (date r0))
                      (fold_left JS.add (pay <$> r0 :: g) (JS.Num 0)))
    end.
Proof.
  induction rows as [|r rows IH] using rev_ind; [done|].
  rewrite accumulate_snoc, accumulateRow_get, filter_app, IH.
  rewrite filter_cons, filter_nil.
  destruct (decide (rowKey r = k)) as [Hk|Hk].
  - destruct (filter _ rows) as [|r0 g]; [done|].
    cbn [employeeId payPeriod amountPaid].
    change ((r0 :: g) ++ [r]) with (r0 :: (g ++ [r])). cbv beta iota.
    change (r0 :: (g ++ [r])) with ((r0 :: g) ++ [r]).
    by rewrite fmap_app, fold_left_app.
  - by rewrite app_nil_r.
Qed.
End accumulator.

(** ** Sums of amounts, and the sort *)

Section sums_and_sort.
Import Report.
Local Open Scope Z_scope.


Lemma add_assoc (a b c : JS.number) :
  JS.add a (JS.add b c) = JS.add (JS.add a b) c.
Proof. destruct a, b, c; simpl; try done. f_equal. lia. Qed.

Lemma fold_left_add (l : list JS.number) (a : JS.number) :
  fold_left JS.add l a = JS.add a (sumNumbers l).
Proof.
  revert a. induction l as [|x l IH]; intros a; simpl.
  - destruct a; simpl; [f_equal; lia|done].
  - by rewrite IH, add_assoc.
Qed.

Lemma add_zero (a : JS.number) : JS.add (JS.Num 0) a = a.
Proof. by destruct a. Qed.



Context {A : Type} (comparator : A → A → option Z).

Lemma insert_Permutation (x : A) (l : list A) :
  insert comparator x l ≡ₚ x :: l.
Proof.
  induction l as [|y l IH]; simpl; [done|].
  destruct (goesAfter comparator x y); [|done].
  by rewrite IH, Permutation_swap.
Qed.

Lemma sort_Permutation (l : list A) : sort comparator l ≡ₚ l.
Proof.
  induction l as [|x l IH]; simpl; [done|].
  by rewrite insert_Permutation, IH.
Qed.
End sums_and_sort.

(** ** Splitting and reading amounts *)

Section amounts.
Local Abbreviation chars := String.list_ascii_of_string.
Local Open Scope Z_scope.

Lemma split_no_sep (sep : ascii) (s : string) :
  sep ∉ chars s → JS.split sep s = [s].
Proof.
  induction s as [|c s IH]; simpl; [done|].
  rewrite not_elem_of_cons. intros [Hc Hs].
  rewrite decide_False by done. by rewrite IH.
Qed.

Lemma split_app_sep (sep : ascii) (a b : string) :
  sep ∉ chars a → JS.split sep (a +:+ String sep b) = a :: JS.split sep b.
Proof.
  induction a as [|c a IH]; simpl.
  - intros _. by rewrite decide_True.
  - rewrite not_elem_of_cons. intros [Hc Ha].
    rewrite decide_False by done. by rewrite IH.
Qed.

Lemma allDigits_no_sep (sep : ascii) (s : string) :
  JS.isDigit sep = false → JS.allDigits s = true → sep ∉ chars s.
Proof.
  intros Hsep Hs Hin. apply allDigits_chars in Hs.
  rewrite Forall_forall in Hs. apply Hs in Hin. congruence.
Qed.



End amounts.

(** ** The lines of the report *)

Section lines.
Import Report.
Local Open Scope Z_scope.

Lemma filter_ext_Forall {A} (P Q : A → Prop)
    `{!∀ x, Decision (P x)} `{!∀ x, Decision (Q x)} (l : list A) :
  Forall (λ x, P x ↔ Q x) l → filter P l = filter Q l.
Proof.
  induction 1 as [|x l Hx _ IH]; [done|].
  rewrite !filter_cons, IH. do 2 case_decide; tauto.
Qed.

Lemma rowKey_inj (r r' : Row) :
  valid_date (date r) → valid_date (date r') →
  rowKey r' = rowKey r ↔
  employee_id r' = employee_id r
  ∧ getPayPeriod (date r') = getPayPeriod (date r).
Proof.
  intros [Hm _] [Hm' _]. unfold rowKey. split.
  - by apply keyOf_inj.
  - by intros [-> ->].
Qed.

Lemma group_by_key (rows : list Row) (r : Row) :
  valid_rows rows → valid_date (date r) →
  filter (λ r', rowKey r' = rowKey r) rows = group rows r.
Proof.
  intros Hrows Hr. apply filter_ext_Forall.
  eapply Forall_impl; [exact Hrows|]. intros r' Hr'. by apply rowKey_inj.
Qed.

Lemma accumulate_get_row (rows : list Row) (r : Row) :
  valid_rows rows → r ∈ rows →
  obj_get (rowKey r) (accumulate rows) = Some (accOf rows r).
Proof.
  intros Hrows Hr.
  assert (valid_date (date r)) as Hv.
  { unfold valid_rows in Hrows. rewrite Forall_forall in Hrows. by apply Hrows. }
  rewrite accumulate_get, group_by_key by done.
  assert (r ∈ group rows r) as Hin by (by apply list_elem_of_filter).
  destruct (group rows r) as [|r0 g] eqn:Hg; [by apply elem_of_nil in Hin|].
  assert (r0 ∈ group rows r) as Hr0 by (rewrite Hg; left).
  apply list_elem_of_filter in Hr0 as [[Hid Hp] _].
  unfold accOf. rewrite Hg, fold_left_add, add_zero, Hid, Hp. done.
Qed.

Lemma accumulate_get_inv (rows : list Row) (k : string) (a : Acc) :
  obj_get k (accumulate rows) = Some a → ∃ r, r ∈ rows ∧ k = rowKey r.
Proof.
  rewrite accumulate_get.
  destruct (filter _ rows) as [|r0 g] eqn:Hf; [done|]. intros _.
  assert (r0 ∈ filter (λ r, rowKey r = k) rows) as Hr0 by (rewrite Hf; left).
  apply list_elem_of_filter in Hr0 as [Hk Hin]. by exists r0.
Qed.

Lemma elem_of_accumulate (rows : list Row) (k : string) (a : Acc) :
  valid_rows rows →
  (k, a) ∈ accumulate rows ↔ ∃ r, r ∈ rows ∧ k = rowKey r ∧ a = accOf rows r.
Proof.
  intros Hrows. rewrite obj_get_elem_of by apply accumulate_NoDup. split.
  - intros Hget. destruct (accumulate_get_inv _ _ _ Hget) as (r & Hr & ->).
    exists r. rewrite accumulate_get_row in Hget by done. by simplify_eq.
  - intros (r & Hr & -> & ->). by apply accumulate_get_row.
Qed.

Lemma lineOf_accOf (rows : list Row) (r : Row) :
  lineOf rows r
  = mkEntry (pretty (employeeId (accOf rows r))) (payPeriod (accOf rows r))
            ("$" +:+ JS.toFixed2 (amountPaid (accOf rows r))).
Proof. done. Qed.

Lemma elem_of_format (rows : list Row) (line : Line) :
  valid_rows rows →
  line ∈ format (accumulate rows) ↔ ∃ r, r ∈ rows ∧ line = lineOf rows r.
Proof.
  intros Hrows. unfold format. rewrite list_elem_of_In, in_map_iff.
  setoid_rewrite <-list_elem_of_In. split.
  - intros ([k a] & <- & Hin). apply elem_of_accumulate in Hin; [|done].
    destruct Hin as (r & Hr & -> & ->). by exists r.
  - intros (r & Hr & ->). exists (rowKey r, accOf rows r). split; [done|].
    apply elem_of_accumulate; [done|]. by exists r.
Qed.


End lines.



(** ** Day numbers *)

Section day_numbers.
Local Open Scope Z_scope.







End day_numbers.

(** ** The order of the report *)

Section order.
Import Report.
Local Open Scope Z_scope.




Lemma getPayPeriod_determined (d d' : Date) :
  getFullYear d = getFullYear d' → getMonth d = getMonth d' →
  startDay d = startDay d' → getPayPeriod d = getPayPeriod d'.
Proof.
  intros Hy Hm Hs. unfold getPayPeriod. rewrite Hy, Hm.
  replace (getDate d <=? 15) with (getDate d' <=? 15); [done|].
  unfold startDay in Hs.
  destruct (Z.leb_spec (getDate d) 15), (Z.leb_spec (getDate d') 15);
    repeat case_decide; done || lia.
Qed.





Global Instance lineLe_trans : Transitive lineLe.
Proof.
  intros a b c (ia & ib & ta & tb & Ha & Hb & Hta & Htb & Hab)
    (ib' & ic & tb' & tc & Hb' & Hc & Htb' & Htc & Hbc).
  exists ia, ic, ta, tc. simplify_eq. split_and!; [done..|]. lia.
Qed.


End order.

Section order_of_report.
Import Report.
Local Open Scope Z_scope.





Lemma elem_of_report (rows : list Row) (line : Line) :
  valid_rows rows →
  line ∈ report rows ↔ ∃ r, r ∈ rows ∧ line = lineOf rows r.
Proof.
  intros Hv. unfold report. rewrite sort_Permutation. by apply elem_of_format.
Qed.






End order_of_report.



Section unknown_job_group.
Import Report.

Lemma sumNumbers_NaN (l : list JS.number) : JS.NaN ∈ l → sumNumbers l = JS.NaN.
Proof.
  induction l as [|x l IH]; [by intros ?%elem_of_nil|].
  intros [<-|Hin]%elem_of_cons; simpl; [done|].
  rewrite IH by done. by destruct x.
Qed.

Lemma pay_unknown (r : Row) :
  job_group r ≠ "A" → job_group r ≠ "B" → pay r = JS.NaN.
Proof.
  intros HA HB. unfold pay, jobGroupRates. by rewrite !decide_False.
Qed.
End unknown_job_group.

(** C9.  A stored row whose job group is neither A nor B does not make the
    report fail and is not dropped: the response is the report, with status
    200, and the report has a line for the employee and the pay period of
    the row.  The rate of the row is undefined, not zero: the amount of that
    line is not a number, and its [amountPaid] is the string [$NaN]. *)
Theorem report_unknown_job_group (rows : list Report.Row) (r : Report.Row) :
  Forall (λ r, valid_date (Report.date r)) rows →
  r ∈ rows → Report.job_group r ≠ "A" → Report.job_group r ≠ "B" →
  Report.jobGroupRates (Report.job_group r) = None
  ∧ Report.reportHandler (Some rows)
    = mkResponse 200 (ReportBody (Report.report rows))
  ∧ mkEntry (pretty (Report.employee_id r)) (getPayPeriod (Report.date r)) "$NaN"
    ∈ Report.report rows.
Proof.
  intros Hv Hr HA HB. split; [|split; [done|]].
  - unfold Report.jobGroupRates. by rewrite !decide_False.
  - apply elem_of_report; [done|]. exists r. split; [done|].
    unfold Report.lineOf. rewrite sumNumbers_NaN; [done|].
    apply list_elem_of_fmap. exists r. split; [by rewrite pay_unknown|].
    by apply list_elem_of_filter.
Qed.

Lemma report_unknown_job_group_witness :
  let r := Report.mkRow (mkDate 2023 0 4) 700 9 "C" in
  let rows := [Report.mkRow (mkDate 2023 0 4) 1000 9 "A"; r] in
  Forall (λ r, valid_date (Report.date r)) rows
  ∧ mkEntry "9" (mkPayPeriod "2023-01-01" "2023-01-15") "$NaN" ∈ Report.report rows.
Proof.
  intros r rows.
  assert (Forall (λ r, valid_date (Report.date r)) rows) as Hv.
  { repeat constructor; simpl; try lia; vm_compute; discriminate. }
  split; [exact Hv|].
  refine (proj2 (proj2 (report_unknown_job_group rows r Hv _ _ _))).
  - right. left.
  - vm_compute. discriminate.
  - vm_compute. discriminate.
Defined.

(** ** The upload handler *)

Section upload_steps.
Import Upload.
Context (accepts : TimekeepingEntry → bool).

Lemma bind_run {A B} (m : M A) (k : A → M B) (w : World) :
  (m ≫= k) w
  = match m w with
    | (w', inl e) => (w', inl e)
    | (w', inr a) => k a w'
    end.
Proof. done. Qed.

Lemma unlinkAsync_staged (p : string) (w : World) (csv : Csv) :
  uploads w !! p = Some csv →
  unlinkAsync p w
  = (mkWorld (delete p (uploads w)) (timekeeping_reports w)
             (timekeeping_entries w) (transaction w), inr ()).
Proof. intros H. unfold unlinkAsync. by rewrite H. Qed.

(** The extension is checked before anything else. *)
Lemma upload_not_csv (file : File) (w : World) (csv : Csv) :
  uploads w !! path file = Some csv →
  toLowerCase (extname (originalname file)) ≠ ".csv" →
  upload accepts (Some file) w
  = (mkWorld (delete (path file) (uploads w)) (timekeeping_reports w)
             (timekeeping_entries w) (transaction w), inr unsupportedFileType).
Proof.
  intros Hst Hext. unfold upload. rewrite decide_True by done.
  rewrite bind_run. by erewrite unlinkAsync_staged.
Qed.

Lemma upload_csv (file : File) (w : World) :
  toLowerCase (extname (originalname file)) = ".csv" →
  upload accepts (Some file) w
  = catch (uploadTry accepts file)
          (λ _, queryRollback;; ret internalServerError) w.
Proof. intros Hext. unfold upload. by rewrite decide_False by (by intros []). Qed.

Lemma uploadTry_bad_name (file : File) (w : World) (csv : Csv) :
  uploads w !! path file = Some csv →
  matchTimeReport (basename (originalname file) ".csv") = None →
  uploadTry accepts file w
  = (mkWorld (delete (path file) (uploads w)) (timekeeping_reports w)
             (timekeeping_entries w) (transaction w), inr invalidFilenameFormat).
Proof.
  intros Hst Hname. unfold uploadTry. rewrite Hname.
  rewrite bind_run. by erewrite unlinkAsync_staged.
Qed.

(** Whatever the [try] block throws, the response is the same. *)
Lemma upload_thrown (file : File) (w w' : World) (e : Error) :
  toLowerCase (extname (originalname file)) = ".csv" →
  uploadTry accepts file w = (w', inl e) →
  (upload accepts (Some file) w).2 = inr internalServerError
  ∧ uploads (upload accepts (Some file) w).1 = uploads w'.
Proof.
  intros Hext Htry. rewrite upload_csv by done. unfold catch. rewrite Htry.
  rewrite bind_run. unfold queryRollback.
  destruct (transaction w') as [[reports entries]|]; done.
Qed.
End upload_steps.

(** C8, as amended.  The upload checks the extension first: a staged file
    whose extension is not [.csv], in any letter case, fails with
    [UnsupportedFileType] whatever its name; a file whose extension is
    [.csv] and whose name without the suffix [.csv] is not
    [time-report-<digits>] fails with [InvalidFilenameFormat]. *)
Theorem upload_extension_first (accepts : Upload.TimekeepingEntry → bool)
    (file : Upload.File) (w : Upload.World) (csv : Upload.Csv) :
  Upload.uploads w !! Upload.path file = Some csv →
  (Upload.toLowerCase (Upload.extname (Upload.originalname file)) ≠ ".csv" →
   (Upload.upload accepts (Some file) w).2 = inr Upload.unsupportedFileType)
  ∧ (Upload.toLowerCase (Upload.extname (Upload.originalname file)) = ".csv" →
     Upload.matchTimeReport (Upload.basename (Upload.originalname file) ".csv")
       = None →
     (Upload.upload accepts (Some file) w).2 = inr Upload.invalidFilenameFormat).
Proof.
  intros Hst. split.
  - intros Hext. by erewrite upload_not_csv.
  - intros Hext Hname. rewrite upload_csv by done. unfold Upload.catch.
    by erewrite uploadTry_bad_name.
Qed.

Lemma upload_extension_first_witness :
  let csv := Upload.mkCsv None [] in
  let w := Upload.mkWorld {[ "uploads/1" := csv ]} [] [] None in
  (Upload.upload (λ _, true) (Some (Upload.mkFile "notes.txt" "uploads/1")) w).2
    = inr Upload.unsupportedFileType
  ∧ (Upload.upload (λ _, true) (Some (Upload.mkFile "notes.csv" "uploads/1")) w).2
    = inr Upload.invalidFilenameFormat.
Proof.
  intros csv w. split.
  - refine (proj1 (upload_extension_first (λ _, true)
                     (Upload.mkFile "notes.txt" "uploads/1") w csv _) _).
    + vm_compute. reflexivity.
    + vm_compute. discriminate.
  - refine (proj2 (upload_extension_first (λ _, true)
                     (Upload.mkFile "notes.csv" "uploads/1") w csv _) _ _).
    + vm_compute. reflexivity.
    + vm_compute. reflexivity.
    + vm_compute. reflexivity.
Defined.

(** C8, as stated, fails: a file named [notes.txt], whose stem is not
    [time-report-<digits>], is answered [UnsupportedFileType]. *)
Lemma upload_notes_txt : ¬ Upload.filenameCheckedFirst.
Proof.
  intros Hclaim.
  specialize (Hclaim (λ _, true) (Upload.mkFile "notes.txt" "uploads/1")
                (Upload.mkWorld {[ "uploads/1" := Upload.mkCsv None [] ]} [] [] None)
                (Upload.mkCsv None [])).
  vm_compute in Hclaim. specialize (Hclaim eq_refl eq_refl). discriminate.
Qed.

Section upload_rows.
Import Upload.
Context (accepts : TimekeepingEntry → bool).

Lemma filter_none {A} (P : A → Prop) `{!∀ x, Decision (P x)} (l : list A) :
  Forall (λ x, ¬ P x) l → filter P l = [].
Proof.
  induction 1 as [|x l Hx _ IH]; [done|].
  by rewrite filter_cons, decide_False.
Qed.

Lemma isEmpty_blank (row : gmap string string) :
  isEmpty row = false ↔ ¬ blank row.
Proof.
  unfold isEmpty, blank. rewrite bool_decide_eq_false. done.
Qed.

Lemma selectReports_fresh (reportId : string) (w : World) :
  reportId ∉ (timekeeping_reports w).*1 →
  selectReports reportId w = (w, inr []).
Proof.
  intros Hfresh. unfold selectReports, Reports in *. do 2 f_equal.
  induction (timekeeping_reports w) as [|[id name] l IH]; [done|].
  rewrite fmap_cons, not_elem_of_cons in Hfresh. destruct Hfresh as [Hne Hl].
  rewrite filter_cons, decide_False by (simpl in *; congruence). by apply IH.
Qed.

Lemma processCSVFile_complete (p : string) (w : World) (csv : Csv)
    (hs : list string) :
  uploads w !! p = Some csv → headers csv = Some hs →
  Forall (λ header, header ∈ hs) requiredHeaders →
  processCSVFile p w = (w, inr (filter (λ row, ¬ blank row) (data csv))).
Proof.
  intros Hst Hh Hall. unfold processCSVFile. rewrite Hst, Hh.
  assert (filter (λ header, header ∉ hs) requiredHeaders = []) as ->.
  { apply filter_none.
    eapply Forall_impl; [exact Hall|]. intros h Hin Hnot. by apply Hnot. }
  rewrite bool_decide_eq_false_2 by (simpl; lia). do 2 f_equal.
  apply list_filter_iff. intros row. apply isEmpty_blank.
Qed.

Lemma uploadTry_reaches (file : File) (w : World) (reportId : string)
    (results : list (gmap string string)) :
  reachesRows file w reportId results →
  uploadTry accepts file w
  = (insertRows accepts reportId results;;
     queryCommit;;
     unlinkAsync (path file);;
     ret stored) (afterBegin file w reportId).
Proof.
  intros (Hext & Hname & (Hl1 & Hl2 & Hfresh) & Htx
          & csv & hs & Hst & Hh & Hall & -> & Hne).
  unfold uploadTry. rewrite Hname, bind_run, selectReports_fresh by done.
  rewrite bool_decide_eq_false_2 by (simpl; lia).
  rewrite bind_run, (processCSVFile_complete _ _ csv hs) by done.
  rewrite bool_decide_eq_false_2.
  2:{ destruct (filter _ (data csv)); [done|simpl; lia]. }
  rewrite bind_run. unfold queryBegin at 1. rewrite Htx.
  rewrite bind_run. unfold insertReport at 1. cbn [uploads timekeeping_reports
    timekeeping_entries transaction].
  rewrite !bool_decide_eq_true_2 by done. done.
Qed.
End upload_rows.

Section upload_entries.
Import Upload.
Local Abbreviation chars := String.list_ascii_of_string.
Context (accepts : TimekeepingEntry → bool).

Lemma padStart2_length_2 (s : string) :
  String.length s = 2%nat → JS.padStart2 s = s.
Proof. intros H. unfold JS.padStart2. by rewrite H. Qed.

Lemma split_dmy (dd mm yyyy : string) :
  isDMY dd mm yyyy →
  JS.split "/" (dd +:+ "/" +:+ mm +:+ "/" +:+ yyyy) = [dd; mm; yyyy].
Proof.
  intros (Hd & _ & Hm & _ & Hy & _).
  change (dd +:+ "/" +:+ mm +:+ "/" +:+ yyyy)
    with (dd +:+ String "/" (mm +:+ String "/" yyyy)).
  rewrite !split_app_sep by (by apply allDigits_no_sep).
  rewrite split_no_sep by (by apply allDigits_no_sep). done.
Qed.

Lemma rowToEntry_wellFormed (reportId : string) (row : gmap string string) :
  wellFormed row →
  ∃ entry, rowToEntry reportId row = inr entry ∧ persistedAs reportId row entry.
Proof.
  intros (dd & mm & yyyy & h & e & g & Hdmy & Hdate & Hh & _ & He & _ & Hg & Hgne).
  exists (mkTimekeepingEntry reportId (yyyy +:+ "-" +:+ mm +:+ "-" +:+ dd) h e g).
  split.
  - unfold rowToEntry. rewrite Hdate, Hh, He, Hg.
    destruct Hdmy as (Hd & Hdl & Hm & Hml & Hy & Hyl).
    cbn [isFalsy isUndefined orb]. rewrite !bool_decide_eq_false_2.
    2:{ done. }
    2:{ destruct dd; [done|]. done. }
    cbn [orb]. cbn zeta. rewrite split_dmy by done.
    by rewrite !padStart2_length_2.
  - exists dd, mm, yyyy. done.
Qed.

Lemma persistedAs_fun (reportId : string) (row : gmap string string)
    (e1 e2 : TimekeepingEntry) :
  persistedAs reportId row e1 → persistedAs reportId row e2 → e1 = e2.
Proof.
  intros (dd & mm & yyyy & Hdmy & Hdate & Hd1 & Hh1 & He1 & Hg1 & Hr1)
    (dd' & mm' & yyyy' & Hdmy' & Hdate' & Hd2 & Hh2 & He2 & Hg2 & Hr2).
  assert ([dd; mm; yyyy] = [dd'; mm'; yyyy']) as Hparts.
  { rewrite <-(split_dmy dd mm yyyy), <-(split_dmy dd' mm' yyyy') by done.
    congruence. }
  destruct e1, e2. simpl in *. simplify_eq. done.
Qed.

Lemma rowToEntry_rejected (reportId : string) (row : gmap string string) :
  rejectedForField row → rowToEntry reportId row = inl MissingFields.
Proof.
  unfold rejectedForField, absentOrEmpty, absent, rowToEntry.
  intros [[->| ->]|[->|[->|[->| ->]]]]; cbn [isFalsy isUndefined];
    rewrite ?bool_decide_eq_true_2 by done;
    repeat (destruct (isFalsy _) || destruct (isUndefined _)); done.
Qed.

Lemma mapRows_all (reportId : string) (rows : list (gmap string string))
    (entries : list TimekeepingEntry) :
  Forall2 (λ row entry, rowToEntry reportId row = inr entry) rows entries →
  mapRows reportId rows = (entries, None).
Proof.
  induction 1 as [|row entry rows entries Hrow _ IH]; [done|].
  simpl. by rewrite Hrow, IH.
Qed.

Lemma mapRows_throws (reportId : string) (good rest : list (gmap string string))
    (row : gmap string string) (entries : list TimekeepingEntry) (e : Error) :
  Forall2 (λ row entry, rowToEntry reportId row = inr entry) good entries →
  rowToEntry reportId row = inl e →
  mapRows reportId (good ++ row :: rest) = (entries, Some e).
Proof.
  intros Hgood Hrow.
  induction Hgood as [|row' entry rows entries Hrow' _ IH]; simpl.
  - by rewrite Hrow.
  - by rewrite Hrow', IH.
Qed.

Lemma passes_entries (reportId : string) (rows : list (gmap string string)) :
  Forall (passes reportId) rows →
  ∃ entries, Forall2 (λ row entry, rowToEntry reportId row = inr entry)
               rows entries.
Proof.
  induction 1 as [|row rows [entry Hrow] _ [entries IH]].
  - by exists [].
  - exists (entry :: entries). by constructor.
Qed.

Lemma runQueries_accepted (entries : list TimekeepingEntry) (w : World) :
  Forall (λ entry, accepts entry = true) entries →
  runQueries accepts entries w
  = (mkWorld (uploads w) (timekeeping_reports w)
             (timekeeping_entries w ++ entries) (transaction w), inr ()).
Proof.
  intros Hall. revert w.
  induction Hall as [|entry entries Hacc _ IH]; intros w.
  - simpl. unfold ret. rewrite app_nil_r. by destruct w.
  - cbn [runQueries]. rewrite bind_run. unfold insertEntry at 1.
    rewrite Hacc, IH. cbn [uploads timekeeping_reports timekeeping_entries
      transaction]. by rewrite <-app_assoc.
Qed.

(** The queries touch nothing but the table of entries. *)
Lemma runQueries_frame (entries : list TimekeepingEntry) (w : World) :
  uploads (runQueries accepts entries w).1 = uploads w
  ∧ timekeeping_reports (runQueries accepts entries w).1 = timekeeping_reports w
  ∧ transaction (runQueries accepts entries w).1 = transaction w.
Proof.
  revert w. induction entries as [|entry entries IH]; intros w.
  { cbn [runQueries]. unfold ret. split; [|split]; reflexivity. }
  cbn [runQueries]. rewrite bind_run. unfold insertEntry.
  destruct (accepts entry); [|done].
  destruct (IH (mkWorld (uploads w) (timekeeping_reports w)
                  (timekeeping_entries w ++ [entry]) (transaction w)))
    as (? & ? & ?). done.
Qed.

(** A valid upload, step by step. *)
Lemma upload_valid (file : File) (w : World) (reportId : string)
    (results : list (gmap string string)) :
  reachesRows file w reportId results →
  Forall wellFormed results →
  (∀ row entry, row ∈ results → persistedAs reportId row entry →
                accepts entry = true) →
  ∃ entries,
    Forall2 (persistedAs reportId) results entries
    ∧ upload accepts (Some file) w
      = (afterUpload file w reportId entries, inr stored).
Proof.
  intros Hreach Hwf Hacc.
  assert (∃ entries,
            Forall2 (λ row entry, rowToEntry reportId row = inr entry
                                  ∧ persistedAs reportId row entry)
              results entries) as [entries Hent].
  { clear Hacc Hreach. induction Hwf as [|row rows Hrow _ [entries IH]].
    - by exists [].
    - destruct (rowToEntry_wellFormed reportId row Hrow) as (entry & ? & ?).
      exists (entry :: entries). by constructor. }
  exists entries. split.
  { eapply Forall2_impl; [exact Hent|]. by intros ?? [_ ?]. }
  assert (Forall (λ entry, accepts entry = true) entries) as Hall.
  { clear Hreach Hwf. induction Hent as [|row entry rows entries [_ Hp] _ IH].
    - constructor.
    - constructor.
      + apply (Hacc row); [left|done].
      + apply IH. intros row' entry' Hin. apply Hacc. by right. }
  pose proof Hreach as (Hext & _ & _ & _ & csv & _ & Hst & _).
  rewrite upload_csv by done. unfold catch.
  rewrite (uploadTry_reaches _ _ _ _ _ Hreach).
  rewrite bind_run. unfold insertRows.
  rewrite (mapRows_all reportId results entries).
  2:{ eapply Forall2_impl; [exact Hent|]. by intros ?? [? _]. }
  rewrite runQueries_accepted by done.
  rewrite bind_run. unfold queryCommit at 1.
  rewrite bind_run. erewrite unlinkAsync_staged by (exact Hst). done.
Qed.
End upload_entries.


Section samples.
Import Upload.

Lemma sample_reachesRows (name reportId : string)
    (data results : list (gmap string string)) :
  toLowerCase (extname name) = ".csv" →
  matchTimeReport (basename name ".csv") = Some reportId →
  (String.length reportId ≤ 255)%nat → (String.length name ≤ 255)%nat →
  results = filter (λ row, ¬ blank row) data → results ≠ [] →
  reachesRows (Sample.file name) (Sample.world (Sample.csv data)) reportId results.
Proof.
  intros Hext Hname Hl1 Hl2 Hres Hne.
  split; [done|]. split; [done|]. split.
  { split; [done|]. split; [done|]. apply not_elem_of_nil. }
  split; [done|].
  exists (Sample.csv data), ["date"; "hours worked"; "employee id"; "job group"].
  split; [done|]. split; [done|]. split; [|done].
  unfold requiredHeaders. repeat constructor.
Qed.

Lemma sample_wellFormed (dd mm yyyy h e g : string) :
  isDMY dd mm yyyy → h ≠ "" → e ≠ "" → g ≠ "" →
  wellFormed (Sample.row (dd +:+ "/" +:+ mm +:+ "/" +:+ yyyy) h e g).
Proof.
  intros Hdmy Hh He Hg. exists dd, mm, yyyy, h, e, g.
  unfold Sample.row. split_and!; try done.
Qed.
End samples.


Section upload_failures.
Import Upload.
Context (accepts : TimekeepingEntry → bool).

Lemma insertRows_throws (reportId : string) (results : list (gmap string string))
    (issued : list TimekeepingEntry) (e : Error) (w : World) :
  mapRows reportId results = (issued, Some e) →
  insertRows accepts reportId results w
  = ((runQueries accepts issued w).1, inl e).
Proof.
  intros Hmap. unfold insertRows. rewrite Hmap, bind_run. unfold catch.
  by destruct (runQueries accepts issued w) as [w' [err|[]]].
Qed.

(** A row the loop rejects aborts the batch, and the rollback of the
    handler leaves the two tables as they were. *)
Lemma upload_row_throws (file : File) (w : World) (reportId : string)
    (results good rest : list (gmap string string)) (row : gmap string string)
    (e : Error) :
  reachesRows file w reportId results →
  results = good ++ row :: rest →
  Forall (passes reportId) good →
  rowToEntry reportId row = inl e →
  (uploadTry accepts file w).2 = inl e
  ∧ (upload accepts (Some file) w).2 = inr internalServerError
  ∧ timekeeping_entries (upload accepts (Some file) w).1 = timekeeping_entries w
  ∧ timekeeping_reports (upload accepts (Some file) w).1 = timekeeping_reports w.
Proof.
  intros Hreach -> Hgood Hrow.
  destruct (passes_entries reportId good Hgood) as [issued Hissued].
  pose proof (mapRows_throws reportId good rest row issued e Hissued Hrow) as Hmap.
  pose proof Hreach as (Hext & _).
  assert (uploadTry accepts file w
          = ((runQueries accepts issued (afterBegin file w reportId)).1, inl e))
    as Htry.
  { rewrite (uploadTry_reaches _ _ _ _ _ Hreach), bind_run.
    by rewrite (insertRows_throws _ _ issued e). }
  split; [by rewrite Htry|].
  rewrite upload_csv by done. unfold catch. rewrite Htry, bind_run.
  destruct (runQueries_frame accepts issued (afterBegin file w reportId))
    as (_ & _ & Htx).
  unfold queryRollback. rewrite Htx. done.
Qed.
End upload_failures.

(** C5, as amended.  In an upload that gets as far as the validation of its
    rows, let the first surviving row that fails it be a row whose [date] or
    [job group] is absent or empty, or whose [hours worked] or [employee id]
    is absent.  Then the batch is aborted with the [MalformedRow] failure,
    and no row of that upload is persisted: both tables are as they were. *)
Theorem upload_missing_field (accepts : Upload.TimekeepingEntry → bool)
    (file : Upload.File) (w : Upload.World) (reportId : string)
    (results good rest : list (gmap string string)) (row : gmap string string) :
  Upload.reachesRows file w reportId results →
  results = good ++ row :: rest →
  Forall (Upload.passes reportId) good →
  Upload.rejectedForField row →
  (Upload.uploadTry accepts file w).2 = inl Upload.MissingFields
  ∧ Upload.timekeeping_entries (Upload.upload accepts (Some file) w).1
    = Upload.timekeeping_entries w
  ∧ Upload.timekeeping_reports (Upload.upload accepts (Some file) w).1
    = Upload.timekeeping_reports w.
Proof.
  intros Hreach Hres Hgood Hrow.
  destruct (upload_row_throws accepts file w reportId results good rest row
              Upload.MissingFields Hreach Hres Hgood
              (rowToEntry_rejected reportId row Hrow)) as (? & _ & ? & ?).
  done.
Qed.

Lemma upload_missing_field_witness :
  Upload.rejectedForField (Sample.row "09/11/2023" "4" "2" "")
  ∧ (Upload.uploadTry Sample.acceptAll (Sample.file "time-report-42.csv")
       (Sample.world (Sample.csv Sample.rowsNoJobGroup))).2
    = inl Upload.MissingFields
  ∧ Upload.timekeeping_entries
      (Upload.upload Sample.acceptAll (Some (Sample.file "time-report-42.csv"))
         (Sample.world (Sample.csv Sample.rowsNoJobGroup))).1 = []
  ∧ Upload.timekeeping_reports
      (Upload.upload Sample.acceptAll (Some (Sample.file "time-report-42.csv"))
         (Sample.world (Sample.csv Sample.rowsNoJobGroup))).1 = [].
Proof.
  assert (Upload.rejectedForField (Sample.row "09/11/2023" "4" "2" "")) as Hrow.
  { do 3 right. right. vm_compute. reflexivity. }
  split; [exact Hrow|].
  apply (upload_missing_field Sample.acceptAll (Sample.file "time-report-42.csv")
           (Sample.world (Sample.csv Sample.rowsNoJobGroup)) "42" Sample.rowsNoJobGroup
           [Sample.row "14/11/2023" "7.5" "1" "A"] []
           (Sample.row "09/11/2023" "4" "2" "")).
  - apply sample_reachesRows; try (vm_compute; reflexivity);
      try (vm_compute; lia); try discriminate.
  - reflexivity.
  - repeat constructor. eexists. vm_compute. reflexivity.
  - exact Hrow.
Defined.

(** C5, as stated, fails: a surviving row whose [hours worked] is present
    but empty is not rejected by the validation.  With a store that takes
    the row, the upload succeeds and the row is persisted; whatever the
    store does, the failure is not [MalformedRow]. *)
Lemma upload_empty_hours :
  ¬ Upload.emptyFieldsRejected
  ∧ (Upload.upload Sample.acceptAll (Some (Sample.file "time-report-42.csv"))
       (Sample.world (Sample.csv Sample.rowsEmptyHours))).2 = inr Upload.stored
  ∧ ∀ accepts,
      (Upload.uploadTry accepts (Sample.file "time-report-42.csv")
         (Sample.world (Sample.csv Sample.rowsEmptyHours))).2
      ≠ inl Upload.MissingFields.
Proof.
  assert (∀ accepts,
            (Upload.uploadTry accepts (Sample.file "time-report-42.csv")
               (Sample.world (Sample.csv Sample.rowsEmptyHours))).2
            ≠ inl Upload.MissingFields) as Hnot.
  { intros accepts Hthrown. vm_compute in Hthrown.
    destruct (accepts _); discriminate. }
  split; [|split; [vm_compute; reflexivity|exact Hnot]].
  intros Hclaim.
  destruct (Hclaim Sample.acceptAll (Sample.file "time-report-42.csv")
              (Sample.world (Sample.csv Sample.rowsEmptyHours)) "42"
              Sample.rowsEmptyHours (Sample.row "14/11/2023" "" "1" "A"))
    as [Hthrown _].
  - apply sample_reachesRows; try (vm_compute; reflexivity);
      try (vm_compute; lia); try discriminate.
  - left.
  - right. left. right. vm_compute. reflexivity.
  - by apply Hnot in Hthrown.
Qed.

(** C10.  The report identifier is the run of digits of the filename, kept
    and compared as a string: [time-report-1.csv] and [time-report-01.csv]
    carry the identifiers [1] and [01], equal as numbers and different as
    strings.  Uploading the two files, both valid, one after the other,
    succeeds twice: the second is not a duplicate, and the store ends with
    two reports. *)
Theorem upload_leading_zero (accepts : Upload.TimekeepingEntry → bool)
    (f1 f2 : Upload.File) (w : Upload.World)
    (rows1 rows2 : list (gmap string string)) :
  Upload.originalname f1 = "time-report-1.csv" →
  Upload.originalname f2 = "time-report-01.csv" →
  Upload.path f1 ≠ Upload.path f2 →
  Upload.reachesRows f1 w "1" rows1 → Upload.reachesRows f2 w "01" rows2 →
  Forall Upload.wellFormed rows1 → Forall Upload.wellFormed rows2 →
  (∀ entry, accepts entry = true) →
  let out1 := Upload.upload accepts (Some f1) w in
  let out2 := Upload.upload accepts (Some f2) out1.1 in
  Upload.matchTimeReport (Upload.basename (Upload.originalname f1) ".csv")
    = Some "1"
  ∧ Upload.matchTimeReport (Upload.basename (Upload.originalname f2) ".csv")
    = Some "01"
  ∧ JS.ToNumber "1" = JS.ToNumber "01"
  ∧ out1.2 = inr Upload.stored
  ∧ out2.2 = inr Upload.stored
  ∧ Upload.timekeeping_reports out2.1
    = Upload.timekeeping_reports w
      ++ [("1", "time-report-1.csv"); ("01", "time-report-01.csv")].
Proof.
  intros Hn1 Hn2 Hpath Hr1 Hr2 Hwf1 Hwf2 Hacc out1 out2.
  destruct (upload_valid accepts f1 w "1" rows1 Hr1 Hwf1) as (es1 & _ & Hout1);
    [by intros|].
  assert (Upload.reachesRows f2 out1.1 "01" rows2) as Hr2'.
  { subst out1. rewrite Hout1. cbn [fst].
    destruct Hr2 as (Hext & Hname & (Hl1 & Hl2 & Hfresh) & Htx
                     & csv & hs & Hst & Hrest).
    split; [done|]. split; [done|]. split; [|split; [done|]].
    - split; [done|]. split; [done|]. cbn [Upload.afterUpload
        Upload.timekeeping_reports]. rewrite fmap_app, elem_of_app.
      intros [?|Hin]; [done|]. apply list_elem_of_singleton in Hin. done.
    - exists csv, hs. split; [|done]. cbn [Upload.afterUpload Upload.uploads].
      by rewrite lookup_delete_ne. }
  destruct (upload_valid accepts f2 out1.1 "01" rows2 Hr2' Hwf2) as (es2 & _ & Hout2);
    [by intros|].
  split; [by destruct Hr1 as (_ & ? & _)|].
  split; [by destruct Hr2 as (_ & ? & _)|].
  split; [done|].
  subst out2. rewrite Hout2. subst out1. rewrite Hout1. cbn [fst snd].
  split; [done|]. split; [done|].
  cbn [Upload.afterUpload Upload.timekeeping_reports]. rewrite Hn1, Hn2.
  by rewrite <-app_assoc.
Qed.

Lemma upload_leading_zero_witness :
  let w := Sample.world2 (Sample.csv Sample.rows) (Sample.csv Sample.rows) in
  let out1 :=
    Upload.upload Sample.acceptAll (Some (Sample.file "time-report-1.csv")) w in
  let out2 :=
    Upload.upload Sample.acceptAll (Some (Sample.file2 "time-report-01.csv")) out1.1 in
  out1.2 = inr Upload.stored ∧ out2.2 = inr Upload.stored
  ∧ Upload.timekeeping_reports out2.1
    = [("1", "time-report-1.csv"); ("01", "time-report-01.csv")].
Proof.
  intros w out1 out2.
  assert (∀ name path reportId,
            Upload.toLowerCase (Upload.extname name) = ".csv" →
            Upload.matchTimeReport (Upload.basename name ".csv") = Some reportId →
            (String.length reportId ≤ 255)%nat → (String.length name ≤ 255)%nat →
            Upload.uploads w !! path = Some (Sample.csv Sample.rows) →
            Upload.reachesRows (Upload.mkFile name path) w reportId
              [Sample.row "14/11/2023" "7.5" "1" "A";
               Sample.row "09/11/2023" "4" "2" "B"]) as Hreach.
  { intros name path reportId Hext Hname Hl1 Hl2 Hst.
    split; [done|]. split; [done|]. split.
    { split; [done|]. split; [done|]. apply not_elem_of_nil. }
    split; [done|].
    exists (Sample.csv Sample.rows),
      ["date"; "hours worked"; "employee id"; "job group"].
    split; [done|]. split; [done|]. split; [repeat constructor|].
    split; [vm_compute; reflexivity|discriminate]. }
  assert (Forall Upload.wellFormed
            [Sample.row "14/11/2023" "7.5" "1" "A";
             Sample.row "09/11/2023" "4" "2" "B"]) as Hwf.
  { repeat constructor.
    - apply (sample_wellFormed "14" "11" "2023"); [|done..].
      repeat split; vm_compute; reflexivity.
    - apply (sample_wellFormed "09" "11" "2023"); [|done..].
      repeat split; vm_compute; reflexivity. }
  refine (proj2 (proj2 (proj2 (upload_leading_zero Sample.acceptAll
    (Sample.file "time-report-1.csv") (Sample.file2 "time-report-01.csv") w
    _ _ eq_refl eq_refl _ _ _ Hwf Hwf _)))).
  - discriminate.
  - apply Hreach; try (vm_compute; reflexivity); vm_compute; lia.
  - apply Hreach; try (vm_compute; reflexivity); vm_compute; lia.
  - reflexivity.
Defined.

(** C6.  A file whose header line lacks [job group] is a caller-input
    failure, [MissingHeaders], and the error names the missing header; the
    response of the handler is the generic internal error, with status 500,
    and names nothing. *)
Theorem upload_missing_header_500 :
  (Upload.uploadTry Sample.acceptAll (Sample.file "time-report-42.csv")
     (Sample.world Sample.csvNoJobGroup)).2
  = inl (Upload.MissingHeaders "job group")
  ∧ (Upload.upload Sample.acceptAll (Some (Sample.file "time-report-42.csv"))
       (Sample.world Sample.csvNoJobGroup)).2
    = inr (mkResponse 500 (ErrorBody "Internal server error")).
Proof. split; vm_compute; reflexivity. Qed.

(** C7.  After the same upload, which fails in the [try] block, the staged
    file is still in temporary storage: the handler of the error rolls the
    transaction back and answers, and removes nothing. *)
Theorem upload_missing_header_keeps_file :
  Upload.uploads
    (Upload.upload Sample.acceptAll (Some (Sample.file "time-report-42.csv"))
       (Sample.world Sample.csvNoJobGroup)).1 !! "uploads/1"
  = Some Sample.csvNoJobGroup.
Proof. vm_compute. reflexivity. Qed.

(** ** Every outcome of an upload *)

Section upload_outcomes.
Import Upload.
Context (accepts : TimekeepingEntry → bool).

Lemma rowToEntry_report_id (reportId : string) (row : gmap string string)
    (entry : TimekeepingEntry) :
  rowToEntry reportId row = inr entry → report_id entry = reportId.
Proof.
  unfold rowToEntry. intros H.
  repeat case_match; simplify_eq; done.
Qed.

Lemma mapRows_inv (reportId : string) (results : list (gmap string string))
    (entries : list TimekeepingEntry) :
  mapRows reportId results = (entries, None) →
  Forall2 (λ row entry, rowToEntry reportId row = inr entry) results entries.
Proof.
  revert entries. induction results as [|row rest IH]; intros entries; simpl.
  - intros [= <-]. constructor.
  - destruct (rowToEntry reportId row) as [e|entry] eqn:Hrow; [done|].
    destruct (mapRows reportId rest) as [es err]. intros [= <- ->].
    constructor; [done|]. by apply IH.
Qed.

Lemma mapRows_inv_error (reportId : string) (results : list (gmap string string))
    (issued : list TimekeepingEntry) (e : Error) :
  mapRows reportId results = (issued, Some e) →
  ∃ good row rest,
    results = good ++ row :: rest
    ∧ Forall2 (λ row entry, rowToEntry reportId row = inr entry) good issued
    ∧ rowToEntry reportId row = inl e.
Proof.
  revert issued. induction results as [|row rest IH]; intros issued; simpl.
  - done.
  - destruct (rowToEntry reportId row) as [e'|entry] eqn:Hrow.
    + intros [= <- ->]. exists [], row, rest. split; [done|]. split; [constructor|done].
    + destruct (mapRows reportId rest) as [es err]. intros [= <- ->].
      destruct (IH es eq_refl) as (good & row' & rest' & -> & Hgood & Hrow').
      exists (row :: good), row', rest'. split; [done|].
      split; [by constructor|done].
Qed.

Lemma runQueries_rejected (entries : list TimekeepingEntry) (w : World) :
  ¬ Forall (λ entry, accepts entry = true) entries →
  (runQueries accepts entries w).2 = inl StoreError.
Proof.
  revert w. induction entries as [|entry entries IH]; intros w Hnot.
  - destruct Hnot. constructor.
  - cbn [runQueries]. rewrite bind_run. unfold insertEntry.
    destruct (accepts entry) eqn:Hacc; [|done].
    apply IH. intros Hall. apply Hnot. by constructor.
Qed.

Lemma processCSVFile_world (p : string) (w : World) :
  (processCSVFile p w).1 = w.
Proof. unfold processCSVFile. by repeat case_match. Qed.

Lemma processCSVFile_inv (p : string) (w w' : World)
    (results : list (gmap string string)) :
  processCSVFile p w = (w', inr results) →
  ∃ csv hs,
    uploads w !! p = Some csv ∧ headers csv = Some hs
    ∧ Forall (λ header, header ∈ hs) requiredHeaders
    ∧ results = filter (λ row, ¬ blank row) (data csv).
Proof.
  unfold processCSVFile.
  destruct (uploads w !! p) as [csv|] eqn:Hst; [|done].
  destruct (headers csv) as [hs|] eqn:Hh; [|done].
  case_bool_decide as Hmiss; [done|]. intros [= <- <-].
  exists csv, hs. split; [done|]. split; [first [done|exact Hh]|]. split.
  - apply Forall_forall. intros h Hin.
    destruct (decide (h ∈ hs)) as [|Hnot]; [done|].
    destruct Hmiss.
    assert (h ∈ filter (λ header, header ∉ hs) requiredHeaders) as Hf.
    { apply list_elem_of_filter. split; [exact Hnot|exact Hin]. }
    destruct (filter _ requiredHeaders); [by apply elem_of_nil in Hf|simpl; lia].
  - apply list_filter_iff. intros row. apply isEmpty_blank.
Qed.

Lemma selectReports_none (reportId : string) (reports : Reports) :
  ¬ (0 < length (filter (λ r, r.1 = reportId) reports))%nat →
  reportId ∉ reports.*1.
Proof.
  unfold Reports in *. intros Hlen Hin.
  apply list_elem_of_fmap in Hin as (r & -> & Hr).
  assert (r ∈ filter (λ r', r'.1 = r.1) reports) as Hf.
  { by apply list_elem_of_filter. }
  destruct (filter _ reports); [by apply elem_of_nil in Hf|].
  apply Hlen. simpl. lia.
Qed.

Lemma selectReports_some (reportId : string) (reports : Reports) :
  reportId ∈ reports.*1 →
  (0 < length (filter (λ r, r.1 = reportId) reports))%nat.
Proof.
  unfold Reports in *. intros Hin.
  apply list_elem_of_fmap in Hin as (r & -> & Hr).
  assert (r ∈ filter (λ r', r'.1 = r.1) reports) as Hf.
  { by apply list_elem_of_filter. }
  destruct (filter _ reports); [by apply elem_of_nil in Hf|simpl; lia].
Qed.

(** The [try] block ends in one of three ways. *)
Lemma uploadTry_outcomes (file : File) (w : World) (csv : Csv) :
  uploads w !! path file = Some csv →
  transaction w = None →
  (∃ reportId results entries,
      matchTimeReport (basename (originalname file) ".csv") = Some reportId
      ∧ freshReport reportId (originalname file) w
      ∧ processCSVFile (path file) w = (w, inr results)
      ∧ results ≠ []
      ∧ mapRows reportId results = (entries, None)
      ∧ Forall (λ entry, accepts entry = true) entries
      ∧ uploadTry accepts file w
        = (afterUpload file w reportId entries, inr stored))
  ∨ (∃ response,
      response ∈ [invalidFilenameFormat; duplicateReport; emptyFile]
      ∧ uploadTry accepts file w = (removeStaged file w, inr response))
  ∨ (∃ w' e,
      uploadTry accepts file w = (w', inl e)
      ∧ uploads w' = uploads w
      ∧ (w' = w
         ∨ transaction w'
           = Some (timekeeping_reports w, timekeeping_entries w))).
Proof.
  intros Hst Htx.
  remember (uploadTry accepts file w) as out eqn:Hout.
  unfold uploadTry in Hout.
  destruct (matchTimeReport _) as [reportId|] eqn:Hname.
  2:{ right; left. exists invalidFilenameFormat. split; [by repeat constructor|].
      rewrite bind_run in Hout. by erewrite unlinkAsync_staged in Hout. }
  rewrite bind_run in Hout. unfold selectReports in Hout. cbv beta iota in Hout.
  case_bool_decide as Hdup; cbv beta iota in Hout.
  { right; left. exists duplicateReport. split; [by repeat constructor|].
    rewrite bind_run in Hout. by erewrite unlinkAsync_staged in Hout. }
  apply selectReports_none in Hdup.
  rewrite bind_run in Hout.
  pose proof (processCSVFile_world (path file) w) as Hw.
  destruct (processCSVFile (path file) w) as [w1 [e|results]] eqn:Hcsv;
    cbn [fst] in Hw; subst w1.
  { right; right. exists w, e. split; [done|]. split; [done|]. by left. }
  case_bool_decide as Hempty; cbv beta iota in Hout.
  { right; left. exists emptyFile. split; [by repeat constructor|].
    rewrite bind_run in Hout. by erewrite unlinkAsync_staged in Hout. }
  rewrite bind_run in Hout. unfold queryBegin in Hout. rewrite Htx in Hout.
  rewrite bind_run in Hout. unfold insertReport in Hout.
  cbn [uploads timekeeping_reports timekeeping_entries transaction] in Hout.
  destruct (bool_decide (String.length reportId ≤ 255)%nat
            && bool_decide (String.length (originalname file) ≤ 255)%nat
            && bool_decide (reportId ∉ (timekeeping_reports w).*1)) eqn:Hins.
  2:{ right; right. eexists _, StoreError. split; [done|]. split; [done|].
      by right. }
  apply andb_prop in Hins as [Hins _]. apply andb_prop in Hins as [Hl1 Hl2].
  apply bool_decide_eq_true in Hl1, Hl2.
  change (mkWorld (uploads w)
            (timekeeping_reports w ++ [(reportId, originalname file)])
            (timekeeping_entries w)
            (Some (timekeeping_reports w, timekeeping_entries w)))
    with (afterBegin file w reportId) in Hout.
  rewrite bind_run in Hout.
  destruct (mapRows reportId results) as [issued [e|]] eqn:Hmap.
  { rewrite (insertRows_throws accepts _ _ issued e) in Hout by done.
    destruct (runQueries_frame accepts issued (afterBegin file w reportId))
      as (Hup & _ & Htx').
    right; right. eexists _, e. split; [done|]. split; [done|]. by right. }
  unfold insertRows in Hout. rewrite Hmap in Hout.
  destruct (decide (Forall (λ entry, accepts entry = true) issued)) as [Hall|Hnot].
  - left. exists reportId, results, issued.
    split; [done|]. split; [done|]. split; [done|].
    split; [by intros ->|]. split; [done|]. split; [done|].
    rewrite runQueries_accepted in Hout by done.
    rewrite bind_run in Hout. unfold queryCommit in Hout.
    rewrite bind_run in Hout.
    erewrite unlinkAsync_staged in Hout by (exact Hst). done.
  - pose proof (runQueries_rejected issued (afterBegin file w reportId) Hnot) as Hrej.
    destruct (runQueries_frame accepts issued (afterBegin file w reportId))
      as (Hup & _ & Htx').
    destruct (runQueries accepts issued (afterBegin file w reportId))
      as [w2 [e|[]]]; [|done].
    right; right. exists w2, e. split; [done|]. split; [done|]. by right.
Qed.

(** The handler ends in one of three ways: the upload is stored; it is
    refused and the staged file removed; or the answer is the internal
    error and the world is as it was. *)
Lemma upload_outcomes (file : File) (w : World) (csv : Csv) :
  uploads w !! path file = Some csv →
  transaction w = None →
  (∃ reportId results entries,
      toLowerCase (extname (originalname file)) = ".csv"
      ∧ matchTimeReport (basename (originalname file) ".csv") = Some reportId
      ∧ freshReport reportId (originalname file) w
      ∧ processCSVFile (path file) w = (w, inr results)
      ∧ results ≠ []
      ∧ mapRows reportId results = (entries, None)
      ∧ Forall (λ entry, accepts entry = true) entries
      ∧ upload accepts (Some file) w
        = (afterUpload file w reportId entries, inr stored))
  ∨ (∃ response,
      response ∈ refusals
      ∧ upload accepts (Some file) w = (removeStaged file w, inr response))
  ∨ upload accepts (Some file) w = (w, inr internalServerError).
Proof.
  intros Hst Htx.
  destruct (decide (toLowerCase (extname (originalname file)) = ".csv"))
    as [Hext|Hext].
  2:{ right; left. exists unsupportedFileType. split; [by repeat constructor|].
      by rewrite (upload_not_csv accepts file w csv). }
  rewrite upload_csv by done. unfold catch.
  destruct (uploadTry_outcomes file w csv Hst Htx)
    as [(reportId & results & entries & ? & ? & ? & ? & ? & ? & ->)
       |[(response & Hin & ->)|(w' & e & -> & Hup & Hw')]].
  - left. by exists reportId, results, entries.
  - right; left. exists response. split; [|done]. unfold refusals. by right.
  - right; right. rewrite bind_run. unfold queryRollback.
    destruct Hw' as [->|Htx'].
    + by rewrite Htx.
    + rewrite Htx', Hup. destruct w. simpl in *. by subst.
Qed.

Lemma stored_not_refusal (response : Response) :
  response ∈ refusals → response ≠ stored.
Proof.
  unfold refusals. intros Hin ->.
  repeat (apply elem_of_cons in Hin as [Hin|Hin]; [discriminate|]).
  by apply elem_of_nil in Hin.
Qed.
End upload_outcomes.

Section upload_paths.
Import Upload.
Context (accepts : TimekeepingEntry → bool).

(** The steps every upload with a good name and a new identifier goes
    through before its file is read. *)
Ltac to_processCSVFile Hname Hfresh :=
  unfold uploadTry; rewrite Hname, bind_run, selectReports_fresh by exact Hfresh;
  rewrite bool_decide_eq_false_2 by (simpl; lia);
  rewrite bind_run.

Lemma upload_500_unchanged (file : File) (w : World) (csv : Csv) :
  uploads w !! path file = Some csv →
  transaction w = None →
  (upload accepts (Some file) w).2 = inr internalServerError →
  upload accepts (Some file) w = (w, inr internalServerError).
Proof.
  intros Hst Htx Hout.
  destruct (upload_outcomes accepts file w csv Hst Htx)
    as [(reportId & results & entries & _ & _ & _ & _ & _ & _ & _ & Heq)
       |[(response & Hin & Heq)|Heq]]; [| |done].
  - rewrite Heq in Hout. done.
  - rewrite Heq in Hout. simplify_eq/=.
    unfold refusals in Hin.
    repeat (apply elem_of_cons in Hin as [Hin|Hin]; [discriminate|]).
    by apply elem_of_nil in Hin.
Qed.

Lemma uploadTry_duplicate (file : File) (w : World) (csv : Csv)
    (reportId : string) :
  uploads w !! path file = Some csv →
  matchTimeReport (basename (originalname file) ".csv") = Some reportId →
  reportId ∈ (timekeeping_reports w).*1 →
  uploadTry accepts file w = (removeStaged file w, inr duplicateReport).
Proof.
  intros Hst Hname Hin. unfold uploadTry. rewrite Hname, bind_run.
  unfold selectReports. cbv beta iota.
  rewrite bool_decide_eq_true_2 by (by apply selectReports_some).
  rewrite bind_run. by erewrite unlinkAsync_staged.
Qed.

Lemma uploadTry_empty (file : File) (w : World) (csv : Csv)
    (reportId : string) (hs : list string) :
  uploads w !! path file = Some csv →
  matchTimeReport (basename (originalname file) ".csv") = Some reportId →
  reportId ∉ (timekeeping_reports w).*1 →
  headers csv = Some hs →
  Forall (λ header, header ∈ hs) requiredHeaders →
  Forall blank (data csv) →
  uploadTry accepts file w = (removeStaged file w, inr emptyFile).
Proof.
  intros Hst Hname Hfresh Hh Hall Hblank.
  to_processCSVFile Hname Hfresh.
  rewrite (processCSVFile_complete _ _ csv hs) by done.
  rewrite filter_none.
  2:{ eapply Forall_impl; [exact Hblank|]. by intros row Hrow Hnot. }
  rewrite bool_decide_eq_true_2 by done.
  rewrite bind_run. by erewrite unlinkAsync_staged.
Qed.

Lemma uploadTry_headers (file : File) (w : World) (csv : Csv)
    (reportId : string) :
  uploads w !! path file = Some csv →
  matchTimeReport (basename (originalname file) ".csv") = Some reportId →
  reportId ∉ (timekeeping_reports w).*1 →
  (∀ hs, headers csv = Some hs → ¬ Forall (λ header, header ∈ hs) requiredHeaders) →
  uploadTry accepts file w
  = (w, inl match headers csv with
            | None => HeadersNotFound
            | Some hs =>
                MissingHeaders (join (filter (λ header, header ∉ hs) requiredHeaders))
            end).
Proof.
  intros Hst Hname Hfresh Hbad.
  to_processCSVFile Hname Hfresh.
  unfold processCSVFile. rewrite Hst.
  destruct (headers csv) as [hs|]; [|done].
  rewrite bool_decide_eq_true_2; [done|].
  destruct (filter (λ header, header ∉ hs) requiredHeaders) as [|h l] eqn:Hf;
    [|simpl; lia].
  destruct (Hbad hs eq_refl). apply Forall_forall. intros h Hin.
  destruct (decide (h ∈ hs)) as [|Hnot]; [done|].
  assert (h ∈ filter (λ header, header ∉ hs) requiredHeaders) as Hh.
  { apply list_elem_of_filter. split; [exact Hnot|exact Hin]. }
  rewrite Hf in Hh. by apply elem_of_nil in Hh.
Qed.

Lemma uploadTry_long_name (file : File) (w : World) (csv : Csv)
    (reportId : string) (hs : list string) :
  uploads w !! path file = Some csv →
  transaction w = None →
  matchTimeReport (basename (originalname file) ".csv") = Some reportId →
  reportId ∉ (timekeeping_reports w).*1 →
  headers csv = Some hs →
  Forall (λ header, header ∈ hs) requiredHeaders →
  ¬ Forall blank (data csv) →
  (255 < String.length (originalname file))%nat →
  (uploadTry accepts file w).2 = inl StoreError.
Proof.
  intros Hst Htx Hname Hfresh Hh Hall Hblank Hlong.
  to_processCSVFile Hname Hfresh.
  rewrite (processCSVFile_complete _ _ csv hs) by done.
  rewrite bool_decide_eq_false_2.
  2:{ intros Hlen. apply Hblank. apply Forall_forall. intros row Hin.
      destruct (decide (blank row)) as [|Hnot]; [done|].
      assert (row ∈ filter (λ row, ¬ blank row) (data csv)) as Hf.
      { apply list_elem_of_filter. split; [exact Hnot|exact Hin]. }
      destruct (filter _ (data csv)); [by apply elem_of_nil in Hf|done]. }
  rewrite bind_run. unfold queryBegin. rewrite Htx.
  rewrite bind_run. unfold insertReport.
  rewrite (bool_decide_eq_false_2 (String.length (originalname file) ≤ 255)%nat)
    by lia.
  by rewrite andb_false_r.
Qed.

(** An upload whose rows all pass, with a store that takes them. *)
Lemma upload_accepted (file : File) (w : World) (reportId : string)
    (results : list (gmap string string)) (entries : list TimekeepingEntry) :
  reachesRows file w reportId results →
  Forall2 (λ row entry, rowToEntry reportId row = inr entry) results entries →
  Forall (λ entry, accepts entry = true) entries →
  upload accepts (Some file) w = (afterUpload file w reportId entries, inr stored).
Proof.
  intros Hreach Hent Hall.
  pose proof Hreach as (Hext & _ & _ & _ & csv & _ & Hst & _).
  rewrite upload_csv by done. unfold catch.
  rewrite (uploadTry_reaches _ _ _ _ _ Hreach).
  rewrite bind_run. unfold insertRows.
  rewrite (mapRows_all reportId results entries) by done.
  rewrite runQueries_accepted by done.
  rewrite bind_run. unfold queryCommit at 1.
  rewrite bind_run. erewrite unlinkAsync_staged by (exact Hst). done.
Qed.

Lemma uploadTry_rejected (file : File) (w : World) (reportId : string)
    (results : list (gmap string string)) (entries : list TimekeepingEntry) :
  reachesRows file w reportId results →
  Forall2 (λ row entry, rowToEntry reportId row = inr entry) results entries →
  ¬ Forall (λ entry, accepts entry = true) entries →
  (uploadTry accepts file w).2 = inl StoreError.
Proof.
  intros Hreach Hent Hnot.
  rewrite (uploadTry_reaches _ _ _ _ _ Hreach).
  rewrite bind_run. unfold insertRows.
  rewrite (mapRows_all reportId results entries) by done.
  pose proof (runQueries_rejected accepts entries (afterBegin file w reportId) Hnot)
    as Hrej.
  by destruct (runQueries accepts entries (afterBegin file w reportId))
    as [w2 [e|[]]]; simplify_eq/=.
Qed.

Lemma uploadTry_thrown_500 (file : File) (w : World) (csv : Csv) (e : Error) :
  uploads w !! path file = Some csv →
  transaction w = None →
  toLowerCase (extname (originalname file)) = ".csv" →
  (uploadTry accepts file w).2 = inl e →
  upload accepts (Some file) w = (w, inr internalServerError).
Proof.
  intros Hst Htx Hext Htry.
  apply (upload_500_unchanged file w csv Hst Htx).
  destruct (uploadTry accepts file w) as [w' r] eqn:Heq. simpl in Htry. subst r.
  by destruct (upload_thrown accepts file w w' e Hext Heq) as [? _].
Qed.

Lemma reachesRows_intro (file : File) (w : World) (reportId : string)
    (results : list (gmap string string)) :
  toLowerCase (extname (originalname file)) = ".csv" →
  matchTimeReport (basename (originalname file) ".csv") = Some reportId →
  freshReport reportId (originalname file) w →
  transaction w = None →
  processCSVFile (path file) w = (w, inr results) →
  results ≠ [] →
  reachesRows file w reportId results.
Proof.
  intros Hext Hname Hfresh Htx Hcsv Hne.
  destruct (processCSVFile_inv _ _ _ _ Hcsv) as (csv & hs & ? & ? & ? & ?).
  split; [done|]. split; [done|]. split; [done|]. split; [done|].
  by exists csv, hs.
Qed.
End upload_paths.

(** ** What an upload leaves behind *)





(** X3.  The handler keeps the store as the schema wants it: when no two
    reports share a [report_id] and every entry is filed under a report
    that exists, the same holds after the upload, whatever the file. *)
Theorem upload_consistent (accepts : Upload.TimekeepingEntry → bool)
    (file : Upload.File) (w : Upload.World) (csv : Upload.Csv) :
  Upload.uploads w !! Upload.path file = Some csv →
  Upload.transaction w = None →
  Upload.consistent w →
  Upload.consistent (Upload.upload accepts (Some file) w).1.
Proof.
  intros Hst Htx [Hnd Href].
  destruct (upload_outcomes accepts file w csv Hst Htx)
    as [(reportId & results & entries & _ & _ & (_ & _ & Hfresh) & _ & _ & Hmap & _ & ->)
       |[(response & Hin & ->)| ->]]; cbn [fst snd]; [|done..].
  unfold Upload.consistent, Upload.afterUpload, Upload.Reports in *.
  cbn [Upload.timekeeping_reports Upload.timekeeping_entries].
  rewrite fmap_app. cbn [fmap list_fmap fst]. split.
  - apply NoDup_app. split; [done|]. split; [|apply NoDup_singleton].
    intros x Hx Hin. apply list_elem_of_singleton in Hin. by subst x.
  - apply Forall_app. split.
    + eapply Forall_impl; [exact Href|]. intros entry Hin.
      apply elem_of_app. by left.
    + apply mapRows_inv in Hmap.
      induction Hmap as [|row entry rows entries Hrow _ IH]; constructor; [|done].
      apply rowToEntry_report_id in Hrow. rewrite Hrow.
      apply elem_of_app. right. by apply list_elem_of_singleton.
Qed.

Lemma upload_consistent_witness :
  Upload.consistent
    (Upload.upload Sample.acceptAll (Some (Sample.file "time-report-42.csv"))
       (Sample.world (Sample.csv Sample.rows))).1.
Proof.
  apply (upload_consistent Sample.acceptAll (Sample.file "time-report-42.csv")
           (Sample.world (Sample.csv Sample.rows)) (Sample.csv Sample.rows)).
  - vm_compute. reflexivity.
  - reflexivity.
  - split; [apply NoDup_nil_2|constructor].
Defined.

(** X4.  A [.csv] file whose name carries an identifier the store already
    holds is answered 409; the staged file is removed and nothing else
    changes.  The file is not read: the answer is the same whatever it
    holds. *)
Theorem upload_duplicate (accepts : Upload.TimekeepingEntry → bool)
    (file : Upload.File) (w : Upload.World) (csv : Upload.Csv)
    (reportId : string) :
  Upload.uploads w !! Upload.path file = Some csv →
  Upload.toLowerCase (Upload.extname (Upload.originalname file)) = ".csv" →
  Upload.matchTimeReport (Upload.basename (Upload.originalname file) ".csv")
    = Some reportId →
  reportId ∈ (Upload.timekeeping_reports w).*1 →
  Upload.upload accepts (Some file) w
  = (Upload.removeStaged file w, inr Upload.duplicateReport)
  ∧ status Upload.duplicateReport = 409.
Proof.
  intros Hst Hext Hname Hin. split; [|done].
  rewrite upload_csv by done. unfold Upload.catch.
  by rewrite (uploadTry_duplicate accepts file w csv reportId).
Qed.

Lemma upload_duplicate_witness :
  let w :=
    Upload.mkWorld {[ "uploads/1" := Upload.mkCsv None [] ]}
      [("42", "time-report-42.csv")] [] None in
  Upload.upload Sample.acceptAll (Some (Sample.file "time-report-42.csv")) w
  = (Upload.removeStaged (Sample.file "time-report-42.csv") w,
     inr Upload.duplicateReport)
  ∧ status Upload.duplicateReport = 409.
Proof.
  intros w.
  apply (upload_duplicate Sample.acceptAll (Sample.file "time-report-42.csv") w
           (Upload.mkCsv None []) "42").
  - vm_compute. reflexivity.
  - vm_compute. reflexivity.
  - vm_compute. reflexivity.
  - by repeat constructor.
Defined.

(** X5.  Uploading twice.  Once an upload has been stored, a second upload
    under the same filename is answered 409 and changes neither table,
    whatever the second file holds and wherever it is staged. *)
Theorem upload_twice (accepts accepts' : Upload.TimekeepingEntry → bool)
    (file file' : Upload.File) (w : Upload.World) (csv csv' : Upload.Csv) :
  Upload.uploads w !! Upload.path file = Some csv →
  Upload.transaction w = None →
  let out := Upload.upload accepts (Some file) w in
  out.2 = inr Upload.stored →
  Upload.originalname file' = Upload.originalname file →
  Upload.uploads out.1 !! Upload.path file' = Some csv' →
  Upload.upload accepts' (Some file') out.1
  = (Upload.removeStaged file' out.1, inr Upload.duplicateReport).
Proof.
  intros Hst Htx out Hstored Hsame Hst'. subst out.
  destruct (upload_outcomes accepts file w csv Hst Htx)
    as [(reportId & results & entries & Hext & Hname & _ & _ & _ & _ & _ & Heq)
       |[(response & Hin & Heq)|Heq]]; rewrite Heq in Hstored, Hst' |- *;
    cbn [fst snd] in *.
  - rewrite <-Hsame in Hext, Hname.
    rewrite upload_csv by done. unfold Upload.catch.
    rewrite (uploadTry_duplicate accepts' file' _ csv' reportId); try done.
    unfold Upload.Reports. cbn [Upload.afterUpload Upload.timekeeping_reports].
    rewrite fmap_app. apply elem_of_app. right. by apply list_elem_of_singleton.
  - simplify_eq. by apply stored_not_refusal in Hin.
  - done.
Qed.

Lemma upload_twice_witness :
  let w := Sample.world2 (Sample.csv Sample.rows) (Upload.mkCsv None []) in
  let out :=
    Upload.upload Sample.acceptAll (Some (Sample.file "time-report-42.csv")) w in
  Upload.upload Sample.acceptAll (Some (Sample.file2 "time-report-42.csv")) out.1
  = (Upload.removeStaged (Sample.file2 "time-report-42.csv") out.1,
     inr Upload.duplicateReport).
Proof.
  intros w.
  apply (upload_twice Sample.acceptAll Sample.acceptAll
           (Sample.file "time-report-42.csv") (Sample.file2 "time-report-42.csv")
           w (Sample.csv Sample.rows) (Upload.mkCsv None [])).
  - vm_compute. reflexivity.
  - reflexivity.
  - vm_compute. reflexivity.
  - reflexivity.
  - vm_compute. reflexivity.
Defined.

(** X6.  When an upload is stored.  For a staged file, the answer is that
    the data are stored exactly when the file gets as far as the validation
    of its rows (a [.csv] name with a new identifier, the four headers, a
    row that is not blank), every such row passes the validation, and the
    store takes every entry built. *)
Theorem upload_stored_iff (accepts : Upload.TimekeepingEntry → bool)
    (file : Upload.File) (w : Upload.World) (csv : Upload.Csv) :
  Upload.uploads w !! Upload.path file = Some csv →
  Upload.transaction w = None →
  (Upload.upload accepts (Some file) w).2 = inr Upload.stored
  ↔ ∃ reportId results,
      Upload.reachesRows file w reportId results
      ∧ Forall (Upload.passes reportId) results
      ∧ ∀ row entry, row ∈ results →
                     Upload.rowToEntry reportId row = inr entry →
                     accepts entry = true.
Proof.
  intros Hst Htx. split.
  - intros Hstored.
    destruct (upload_outcomes accepts file w csv Hst Htx)
      as [(reportId & results & entries & Hext & Hname & Hfresh & Hcsv & Hne
           & Hmap & Hall & Heq)
         |[(response & Hin & Heq)|Heq]]; rewrite Heq in Hstored;
      cbn [snd] in Hstored.
    + exists reportId, results. split; [by apply reachesRows_intro|].
      apply mapRows_inv in Hmap. clear Heq Hne Hcsv. split.
      * induction Hmap as [|row entry rows entries Hrow _ IH]; constructor.
        -- by exists entry.
        -- apply IH. by inversion Hall.
      * induction Hmap as [|row entry rows entries Hrow _ IH];
          intros row' entry' Hin Hrow'.
        -- by apply elem_of_nil in Hin.
        -- inversion Hall as [|?? Hacc Hall']; subst.
           apply elem_of_cons in Hin as [->|Hin].
           ++ rewrite Hrow in Hrow'. by simplify_eq.
           ++ by apply (IH Hall' row').
    + simplify_eq. by apply stored_not_refusal in Hin.
    + done.
  - intros (reportId & results & Hreach & Hpass & Hacc).
    destruct (passes_entries reportId results Hpass) as [entries Hent].
    rewrite (upload_accepted accepts file w reportId results entries); [done..|].
    clear Hreach Hpass.
    induction Hent as [|row entry rows entries Hrow _ IH]; constructor.
    + apply (Hacc row); [left|done].
    + apply IH. intros row' entry' Hin. apply Hacc. by right.
Qed.

Lemma upload_stored_iff_witness :
  (Upload.upload Sample.acceptAll (Some (Sample.file "time-report-42.csv"))
     (Sample.world (Sample.csv Sample.rows))).2 = inr Upload.stored
  ↔ ∃ reportId results,
      Upload.reachesRows (Sample.file "time-report-42.csv")
        (Sample.world (Sample.csv Sample.rows)) reportId results
      ∧ Forall (Upload.passes reportId) results
      ∧ ∀ row entry, row ∈ results →
                     Upload.rowToEntry reportId row = inr entry →
                     Sample.acceptAll entry = true.
Proof.
  apply (upload_stored_iff Sample.acceptAll (Sample.file "time-report-42.csv")
           (Sample.world (Sample.csv Sample.rows)) (Sample.csv Sample.rows)).
  - vm_compute. reflexivity.
  - reflexivity.
Defined.

(** X7.  A [.csv] file with a good name, a new identifier and the four
    headers, in which every row is blank (or which has no row at all), is
    answered 400 with the message of the empty file; the staged file is
    removed, the tables are untouched and no transaction is begun. *)
Theorem upload_empty_file (accepts : Upload.TimekeepingEntry → bool)
    (file : Upload.File) (w : Upload.World) (csv : Upload.Csv)
    (reportId : string) (hs : list string) :
  Upload.uploads w !! Upload.path file = Some csv →
  Upload.toLowerCase (Upload.extname (Upload.originalname file)) = ".csv" →
  Upload.matchTimeReport (Upload.basename (Upload.originalname file) ".csv")
    = Some reportId →
  reportId ∉ (Upload.timekeeping_reports w).*1 →
  Upload.headers csv = Some hs →
  Forall (λ header, header ∈ hs) Upload.requiredHeaders →
  Forall Upload.blank (Upload.data csv) →
  Upload.upload accepts (Some file) w
  = (Upload.removeStaged file w, inr Upload.emptyFile)
  ∧ status Upload.emptyFile = 400.
Proof.
  intros Hst Hext Hname Hfresh Hh Hall Hblank. split; [|done].
  rewrite upload_csv by done. unfold Upload.catch.
  by rewrite (uploadTry_empty accepts file w csv reportId hs).
Qed.

Lemma upload_empty_file_witness :
  let csv := Sample.csv [Sample.row "" " " "" ""] in
  Upload.upload Sample.acceptAll (Some (Sample.file "time-report-42.csv"))
    (Sample.world csv)
  = (Upload.removeStaged (Sample.file "time-report-42.csv") (Sample.world csv),
     inr Upload.emptyFile)
  ∧ status Upload.emptyFile = 400.
Proof.
  intros csv.
  apply (upload_empty_file Sample.acceptAll (Sample.file "time-report-42.csv")
           (Sample.world csv) csv "42"
           ["date"; "hours worked"; "employee id"; "job group"]).
  - vm_compute. reflexivity.
  - vm_compute. reflexivity.
  - vm_compute. reflexivity.
  - apply not_elem_of_nil.
  - reflexivity.
  - repeat constructor.
  - repeat constructor. intros header value.
    unfold Sample.row. rewrite !lookup_insert_Some.
    intros [[_ <-]|[_ [[_ <-]|[_ [[_ <-]|[_ Hv]]]]]]; try reflexivity.
    apply lookup_singleton_Some in Hv as [_ <-]. reflexivity.
Defined.

(** X8.  A [.csv] file with a good name and a new identifier whose header
    line is absent, or lacks one of the four headers, is answered 500 and
    nothing changes, the staged file included; this holds whatever rows
    follow, and also when none does.  The error of the [try] block says
    that no header was found, or lists the required headers that are
    missing, in the order of the list of required headers. *)
Theorem upload_bad_headers (accepts : Upload.TimekeepingEntry → bool)
    (file : Upload.File) (w : Upload.World) (csv : Upload.Csv)
    (reportId : string) :
  Upload.uploads w !! Upload.path file = Some csv →
  Upload.transaction w = None →
  Upload.toLowerCase (Upload.extname (Upload.originalname file)) = ".csv" →
  Upload.matchTimeReport (Upload.basename (Upload.originalname file) ".csv")
    = Some reportId →
  reportId ∉ (Upload.timekeeping_reports w).*1 →
  (∀ hs, Upload.headers csv = Some hs →
         ¬ Forall (λ header, header ∈ hs) Upload.requiredHeaders) →
  (Upload.uploadTry accepts file w).2
  = inl match Upload.headers csv with
        | None => Upload.HeadersNotFound
        | Some hs =>
            Upload.MissingHeaders
              (Upload.join (filter (λ header, header ∉ hs) Upload.requiredHeaders))
        end
  ∧ Upload.upload accepts (Some file) w = (w, inr Upload.internalServerError).
Proof.
  intros Hst Htx Hext Hname Hfresh Hbad.
  pose proof (uploadTry_headers accepts file w csv reportId Hst Hname Hfresh Hbad)
    as Htry.
  split; [by rewrite Htry|].
  eapply (uploadTry_thrown_500 accepts file w csv); [done..|].
  by rewrite Htry.
Qed.

Lemma upload_bad_headers_witness :
  let csv := Upload.mkCsv (Some ["date"; "job group"]) [] in
  (Upload.uploadTry Sample.acceptAll (Sample.file "time-report-42.csv")
     (Sample.world csv)).2
  = inl match Upload.headers csv with
        | None => Upload.HeadersNotFound
        | Some hs =>
            Upload.MissingHeaders
              (Upload.join (filter (λ header, header ∉ hs) Upload.requiredHeaders))
        end
  ∧ Upload.upload Sample.acceptAll (Some (Sample.file "time-report-42.csv"))
      (Sample.world csv)
    = (Sample.world csv, inr Upload.internalServerError).
Proof.
  intros csv.
  apply (upload_bad_headers Sample.acceptAll (Sample.file "time-report-42.csv")
           (Sample.world csv) csv "42").
  - vm_compute. reflexivity.
  - reflexivity.
  - vm_compute. reflexivity.
  - vm_compute. reflexivity.
  - apply not_elem_of_nil.
  - intros hs [= <-] Hall.
    apply Forall_cons in Hall as [_ Hall]. apply Forall_cons in Hall as [Hin _].
    repeat (apply elem_of_cons in Hin as [Hin|Hin]; [discriminate|]).
    by apply elem_of_nil in Hin.
Defined.

(** ** Rows and their dates *)

Section split_parts.
Local Abbreviation chars := String.list_ascii_of_string.

Lemma split_nonempty (sep : ascii) (s : string) : JS.split sep s ≠ [].
Proof.
  destruct s as [|c s]; simpl; [done|].
  destruct (decide (c = sep)); [done|]. by destruct (JS.split sep s).
Qed.

(** The first part holds no separator, and the other parts are those of
    what follows the first separator. *)
Lemma split_inv (sep : ascii) (s part : string) (parts : list string) :
  JS.split sep s = part :: parts →
  (sep ∉ chars part)
  ∧ ((parts = [] ∧ s = part)
     ∨ ∃ s', s = part +:+ String sep s' ∧ JS.split sep s' = parts).
Proof.
  revert part parts. induction s as [|c s IH]; intros part parts; simpl.
  - intros [= <- <-]. split; [apply not_elem_of_nil|by left].
  - destruct (decide (c = sep)) as [->|Hne].
    + intros [= <- <-]. split; [apply not_elem_of_nil|]. right. by exists s.
    + destruct (JS.split sep s) as [|p ps] eqn:Hs.
      { by apply split_nonempty in Hs. }
      intros [= <- <-]. destruct (IH p ps eq_refl) as [Hp Hrest]. split.
      * simpl. rewrite not_elem_of_cons. split; [congruence|done].
      * destruct Hrest as [[-> ->]|(s' & -> & Hs')]; [by left|].
        right. by exists s'.
Qed.

Lemma split_three (sep : ascii) (s a b c : string) :
  JS.split sep s = [a; b; c] ↔
  s = a +:+ String sep (b +:+ String sep c)
  ∧ (sep ∉ chars a) ∧ (sep ∉ chars b) ∧ (sep ∉ chars c).
Proof.
  split.
  - intros Hs.
    apply split_inv in Hs as [Ha [[? _]|(s1 & -> & Hs)]]; [done|].
    apply split_inv in Hs as [Hb [[? _]|(s2 & -> & Hs)]]; [done|].
    apply split_inv in Hs as [Hc [[_ ->]|(s3 & _ & Hs)]]; [done|].
    by apply split_nonempty in Hs.
  - intros (-> & Ha & Hb & Hc).
    rewrite !split_app_sep by done. by rewrite split_no_sep.
Qed.

End split_parts.

Section upload_dates.
Import Upload.
Local Abbreviation chars := String.list_ascii_of_string.

Lemma rowToEntry_fields (reportId : string) (row : gmap string string)
    (d h e g : string) :
  row !! "date" = Some d → row !! "hours worked" = Some h →
  row !! "employee id" = Some e → row !! "job group" = Some g →
  d ≠ "" → g ≠ "" →
  rowToEntry reportId row
  = match JS.split "/" d with
    | [day; month; year] =>
        inr (mkTimekeepingEntry reportId
               (year +:+ "-" +:+ JS.padStart2 month +:+ "-" +:+ JS.padStart2 day)
               h e g)
    | _ => inl (InvalidDate row)
    end.
Proof.
  intros Hd Hh He Hg Hdne Hgne. unfold rowToEntry. rewrite Hd, Hh, He, Hg.
  cbn [isFalsy isUndefined orb]. by rewrite !bool_decide_eq_false_2 by done.
Qed.

Lemma rowToEntry_inr (reportId : string) (row : gmap string string)
    (entry : TimekeepingEntry) :
  rowToEntry reportId row = inr entry →
  ∃ d, row !! "date" = Some d ∧ d ≠ ""
       ∧ row !! "hours worked" = Some (hours_worked entry)
       ∧ row !! "employee id" = Some (employee_id entry)
       ∧ row !! "job group" = Some (job_group entry)
       ∧ job_group entry ≠ "".
Proof.
  unfold rowToEntry.
  destruct (row !! "date") as [d|]; [|done].
  destruct (row !! "hours worked") as [h|];
    [|cbn [isFalsy isUndefined]; by rewrite orb_true_r].
  destruct (row !! "employee id") as [e|];
    [|cbn [isFalsy isUndefined]; by rewrite orb_true_r].
  destruct (row !! "job group") as [g|];
    [|cbn [isFalsy isUndefined]; by rewrite orb_true_r].
  cbn [isFalsy isUndefined]. rewrite !orb_false_r.
  destruct (bool_decide (d = "")) eqn:Hd; [done|].
  destruct (bool_decide (g = "")) eqn:Hg; [done|].
  apply bool_decide_eq_false in Hd, Hg. cbn [orb].
  intros Hrow. exists d.
  assert (hours_worked entry = h ∧ employee_id entry = e ∧ job_group entry = g)
    as (-> & -> & ->); [|done].
  repeat case_match; by simplify_eq.
Qed.
End upload_dates.

(** X9.  What the loop takes for a row.  The loop builds an entry from a
    row exactly when the row supplies a date made of three parts separated
    by two slashes, its hours, its employee and a job group that is not
    empty.  The parts of the date are not looked into: the date written is
    the third part, then the second and the first, each padded with zeros
    to two characters, joined by hyphens; the other fields are copied as
    they are. *)
Theorem rowToEntry_passes (reportId : string) (row : gmap string string)
    (entry : Upload.TimekeepingEntry) :
  Upload.rowToEntry reportId row = inr entry
  ↔ ∃ day month year,
      ("/"%char ∉ String.list_ascii_of_string day)
      ∧ ("/"%char ∉ String.list_ascii_of_string month)
      ∧ ("/"%char ∉ String.list_ascii_of_string year)
      ∧ row !! "date" = Some (day +:+ "/" +:+ month +:+ "/" +:+ year)
      ∧ row !! "hours worked" = Some (Upload.hours_worked entry)
      ∧ row !! "employee id" = Some (Upload.employee_id entry)
      ∧ row !! "job group" = Some (Upload.job_group entry)
      ∧ Upload.job_group entry ≠ ""
      ∧ Upload.report_id entry = reportId
      ∧ Upload.date entry
        = year +:+ "-" +:+ JS.padStart2 month +:+ "-" +:+ JS.padStart2 day.
Proof.
  split.
  - intros Hrow.
    destruct (rowToEntry_inr reportId row entry Hrow)
      as (d & Hd & Hdne & Hh & He & Hg & Hgne).
    rewrite (rowToEntry_fields reportId row d _ _ _ Hd Hh He Hg Hdne Hgne) in Hrow.
    destruct (JS.split "/" d) as [|day [|month [|year [|]]]] eqn:Hsplit; try done.
    apply split_three in Hsplit as (-> & ? & ? & ?).
    exists day, month, year. destruct entry as [id dt h e g].
    cbn [Upload.report_id Upload.date Upload.hours_worked Upload.employee_id
         Upload.job_group] in *.
    injection Hrow as <- <-. split_and!; done.
  - intros (day & month & year & Hday & Hmonth & Hyear & Hd & Hh & He & Hg
            & Hgne & Hid & Hdate).
    rewrite (rowToEntry_fields reportId row _ _ _ _ Hd Hh He Hg); [|by destruct day|done].
    change (day +:+ "/" +:+ month +:+ "/" +:+ year)
      with (day +:+ String "/" (month +:+ String "/" year)).
    rewrite (proj2 (split_three "/" _ day month year)) by done.
    destruct entry. simpl in *. by subst.
Qed.

Lemma rowToEntry_passes_witness :
  Upload.rowToEntry "42" (Sample.row "1/2/2023" "7.5" "1" "A")
  = inr (Upload.mkTimekeepingEntry "42" "2023-02-01" "7.5" "1" "A").
Proof.
  apply (proj2 (rowToEntry_passes "42" (Sample.row "1/2/2023" "7.5" "1" "A")
                  (Upload.mkTimekeepingEntry "42" "2023-02-01" "7.5" "1" "A"))).
  exists "1", "2", "2023".
  assert (∀ l : list ascii, Forall (λ c, c ≠ "/"%char) l → "/"%char ∉ l) as Hno.
  { intros l Hl Hin. by apply (proj1 (Forall_forall _ _) Hl) in Hin. }
  split_and!; try (vm_compute; reflexivity); try discriminate;
    apply Hno; vm_compute; repeat constructor; discriminate.
Defined.



(** X11.  In an upload that gets as far as the validation of its rows and
    whose rows all pass it, let the store refuse the entry built from one
    of them.  Then the answer is 500 and nothing changes: the rollback
    undoes the report row and the entries inserted before the refusal, and
    the staged file stays. *)
Theorem upload_store_refuses (accepts : Upload.TimekeepingEntry → bool)
    (file : Upload.File) (w : Upload.World) (reportId : string)
    (results : list (gmap string string)) (row : gmap string string)
    (entry : Upload.TimekeepingEntry) :
  Upload.reachesRows file w reportId results →
  Forall (Upload.passes reportId) results →
  row ∈ results →
  Upload.rowToEntry reportId row = inr entry →
  accepts entry = false →
  (Upload.uploadTry accepts file w).2 = inl Upload.StoreError
  ∧ Upload.upload accepts (Some file) w = (w, inr Upload.internalServerError).
Proof.
  intros Hreach Hpass Hin Hrow Hacc.
  destruct (passes_entries reportId results Hpass) as [entries Hent].
  assert (¬ Forall (λ entry, accepts entry = true) entries) as Hnot.
  { intros Hall. clear Hreach Hpass.
    induction Hent as [|row' entry' rows entries Hrow' _ IH].
    - by apply elem_of_nil in Hin.
    - inversion Hall as [|?? Hacc' Hall']; subst.
      apply elem_of_cons in Hin as [->|Hin]; [|by apply IH].
      rewrite Hrow in Hrow'. simplify_eq. congruence. }
  pose proof (uploadTry_rejected accepts file w reportId results entries
                Hreach Hent Hnot) as Htry.
  split; [done|].
  destruct Hreach as (Hext & _ & _ & Htx & csv & _ & Hst & _).
  by apply (uploadTry_thrown_500 accepts file w csv Upload.StoreError).
Qed.

Lemma upload_store_refuses_witness :
  let w := Sample.world (Sample.csv Sample.rows) in
  let accepts :=
    λ entry, bool_decide (Upload.hours_worked entry ≠ "4") in
  (Upload.uploadTry accepts (Sample.file "time-report-42.csv") w).2
  = inl Upload.StoreError
  ∧ Upload.upload accepts (Some (Sample.file "time-report-42.csv")) w
    = (w, inr Upload.internalServerError).
Proof.
  intros w accepts.
  apply (upload_store_refuses accepts (Sample.file "time-report-42.csv") w "42"
           [Sample.row "14/11/2023" "7.5" "1" "A"; Sample.row "09/11/2023" "4" "2" "B"]
           (Sample.row "09/11/2023" "4" "2" "B")
           (Upload.mkTimekeepingEntry "42" "2023-11-09" "4" "2" "B")).
  - apply sample_reachesRows; try (vm_compute; reflexivity);
      try (vm_compute; lia); try discriminate.
  - repeat constructor; eexists; vm_compute; reflexivity.
  - by repeat constructor.
  - vm_compute. reflexivity.
  - vm_compute. reflexivity.
Defined.

(** X12.  The handler does not look at the length of the filename, and the
    column [filename] is a [VARCHAR(255)]: an upload that gets as far as
    its first query with a filename of more than 255 characters is refused
    by the store; the answer is 500 and nothing changes. *)
Theorem upload_long_name (accepts : Upload.TimekeepingEntry → bool)
    (file : Upload.File) (w : Upload.World) (csv : Upload.Csv)
    (reportId : string) (hs : list string) :
  Upload.uploads w !! Upload.path file = Some csv →
  Upload.transaction w = None →
  Upload.toLowerCase (Upload.extname (Upload.originalname file)) = ".csv" →
  Upload.matchTimeReport (Upload.basename (Upload.originalname file) ".csv")
    = Some reportId →
  reportId ∉ (Upload.timekeeping_reports w).*1 →
  Upload.headers csv = Some hs →
  Forall (λ header, header ∈ hs) Upload.requiredHeaders →
  ¬ Forall Upload.blank (Upload.data csv) →
  (255 < String.length (Upload.originalname file))%nat →
  (Upload.uploadTry accepts file w).2 = inl Upload.StoreError
  ∧ Upload.upload accepts (Some file) w = (w, inr Upload.internalServerError).
Proof.
  intros Hst Htx Hext Hname Hfresh Hh Hall Hblank Hlong.
  pose proof (uploadTry_long_name accepts file w csv reportId hs Hst Htx Hname
                Hfresh Hh Hall Hblank Hlong) as Htry.
  split; [done|].
  by apply (uploadTry_thrown_500 accepts file w csv Upload.StoreError).
Qed.

Lemma upload_long_name_witness :
  let name :=
    "time-report-" +:+ String.string_of_list_ascii (replicate 250 "7"%char) +:+ ".csv" in
  let w := Sample.world (Sample.csv Sample.rows) in
  (Upload.uploadTry Sample.acceptAll (Sample.file name) w).2
  = inl Upload.StoreError
  ∧ Upload.upload Sample.acceptAll (Some (Sample.file name)) w
    = (w, inr Upload.internalServerError).
Proof.
  intros name w.
  apply (upload_long_name Sample.acceptAll (Sample.file name) w
           (Sample.csv Sample.rows)
           (String.string_of_list_ascii (replicate 250 "7"%char))
           ["date"; "hours worked"; "employee id"; "job group"]).
  - vm_compute. reflexivity.
  - reflexivity.
  - vm_compute. reflexivity.
  - vm_compute. reflexivity.
  - apply not_elem_of_nil.
  - reflexivity.
  - repeat constructor.
  - intros Hall. apply Forall_cons in Hall as [Hblank _].
    specialize (Hblank "date" "14/11/2023"). vm_compute in Hblank.
    specialize (Hblank eq_refl). discriminate.
  - vm_compute. lia.
Defined.

(** ** Filenames *)

Section filenames.
Import Upload.
Local Abbreviation chars := String.list_ascii_of_string.

Lemma app_assoc_string (a b c : string) : (a +:+ b) +:+ c = a +:+ (b +:+ c).
Proof. apply chars_inj. by rewrite !chars_app, app_assoc. Qed.

Lemma length_chars (s : string) : String.length s = length (chars s).
Proof. induction s as [|c s IH]; simpl; [done|]. by rewrite IH. Qed.

Lemma chars_rev_app (s t : string) :
  chars (String.rev_app s t) = reverse (chars s) ++ chars t.
Proof.
  revert t. induction s as [|c s IH]; intros t; simpl; [done|].
  rewrite IH, reverse_cons, <-app_assoc. done.
Qed.

Lemma chars_rev (s : string) : chars (String.rev s) = reverse (chars s).
Proof. unfold String.rev. by rewrite chars_rev_app, app_nil_r. Qed.

Lemma rev_append (a b : string) :
  String.rev (a +:+ b) = String.rev b +:+ String.rev a.
Proof.
  apply chars_inj. by rewrite chars_app, !chars_rev, chars_app, reverse_app.
Qed.

Lemma rev_rev (s : string) : String.rev (String.rev s) = s.
Proof. apply chars_inj. by rewrite !chars_rev, reverse_involutive. Qed.

Lemma stripPrefix_app (p t : string) : stripPrefix p (p +:+ t) = Some t.
Proof.
  induction p as [|c p IH]; [by destruct t|].
  change (String c p +:+ t) with (String c (p +:+ t)). simpl.
  by rewrite decide_True.
Qed.

Lemma stripPrefix_inv (p s t : string) : stripPrefix p s = Some t → s = p +:+ t.
Proof.
  revert s. induction p as [|c p IH]; intros s; simpl.
  - intros [= <-]. reflexivity.
  - destruct s as [|c' s]; [done|].
    destruct (decide (c = c')) as [->|]; [|done].
    intros H. rewrite (IH s H). reflexivity.
Qed.

Lemma stripSuffix_app (x a : string) : stripSuffix x (a +:+ x) = Some a.
Proof.
  unfold stripSuffix. by rewrite rev_append, stripPrefix_app; simpl; rewrite rev_rev.
Qed.

Lemma stripSuffix_inv (x s a : string) : stripSuffix x s = Some a → s = a +:+ x.
Proof.
  unfold stripSuffix. intros H.
  destruct (stripPrefix (String.rev x) (String.rev s)) as [t|] eqn:Ht; [|done].
  simpl in H. injection H as <-. apply stripPrefix_inv in Ht.
  rewrite <-(rev_rev s), Ht, rev_append, rev_rev. done.
Qed.

Lemma fromLastDot_None (s : string) :
  fromLastDot s = None ↔ "."%char ∉ chars s.
Proof.
  induction s as [|c s IH]; simpl.
  - split; [intros _; apply not_elem_of_nil|done].
  - rewrite not_elem_of_cons. destruct (fromLastDot s) as [e|].
    + split; [done|]. intros [_ Hs]. by apply IH in Hs.
    + destruct (decide (c = "."%char)) as [->|Hne].
      * split; [done|]. by intros [? _].
      * split; [|done]. intros _. split; [congruence|by apply IH].
Qed.

Lemma fromLastDot_app (pre t : string) :
  "."%char ∉ chars t →
  fromLastDot (pre +:+ String "." t) = Some (String "." t).
Proof.
  intros Ht. induction pre as [|c pre IH].
  - apply fromLastDot_None in Ht.
    change ("" +:+ String "." t) with (String "." t). simpl. by rewrite Ht.
  - change (String c pre +:+ String "." t) with (String c (pre +:+ String "." t)).
    simpl. by rewrite IH.
Qed.

Lemma fromLastDot_inv (s e : string) :
  fromLastDot s = Some e → ∃ pre, s = pre +:+ e.
Proof.
  revert e. induction s as [|c s IH]; intros e; simpl; [done|].
  destruct (fromLastDot s) as [e'|].
  - intros [= <-]. destruct (IH e' eq_refl) as [pre ->].
    by exists (String c pre).
  - destruct (decide (c = "."%char)); [|done]. intros [= <-]. by exists "".
Qed.

Lemma lastComponent_no_slash (name : string) :
  "/"%char ∉ chars name → lastComponent name = name.
Proof.
  intros Hname. unfold lastComponent. rewrite split_no_sep by done.
  rewrite filter_cons. destruct (decide (name ≠ "")) as [|Hempty]; [done|].
  simpl. destruct name; [done|]. by destruct Hempty.
Qed.

Lemma toLowerChar_not_digit (c : ascii) :
  toLowerChar c = "v"%char → JS.isDigit c = false.
Proof.
  destruct c as [[] [] [] [] [] [] [] []]; intros H; vm_compute in H;
    first [discriminate|reflexivity].
Qed.

(** An extension that reads [.csv] in lower case ends in a character that
    is not a digit. *)
Lemma toLowerCase_csv (e : string) :
  toLowerCase e = ".csv" →
  ∃ l c, chars e = l ++ [c] ∧ JS.isDigit c = false.
Proof.
  destruct e as [|a [|b [|c [|d [|]]]]]; simpl; try done.
  intros [= _ _ _ Hd]. exists [a; b; c], d. split; [done|].
  by apply toLowerChar_not_digit.
Qed.

Lemma extname_nonempty (name e : string) :
  extname name = e → e ≠ "" →
  ∃ pre, lastComponent name = pre +:+ e.
Proof.
  unfold extname. intros He Hne.
  destruct (fromLastDot (lastComponent name)) as [e'|] eqn:Hdot; [|congruence].
  destruct (decide (String.length e' = String.length (lastComponent name)));
    [congruence|].
  destruct (decide (lastComponent name = "..")); [congruence|]. subst e'.
  by apply fromLastDot_inv in Hdot.
Qed.

Lemma length_app_string (a b : string) :
  String.length (a +:+ b) = (String.length a + String.length b)%nat.
Proof. by rewrite !length_chars, chars_app, length_app. Qed.

Lemma extname_csv (name stem : string) :
  lastComponent name = stem +:+ ".csv" → stem ≠ "" → extname name = ".csv".
Proof.
  intros Hbase Hstem. unfold extname. rewrite Hbase.
  rewrite (fromLastDot_app stem "csv").
  2:{ simpl. rewrite !not_elem_of_cons. split_and!; try done.
      apply not_elem_of_nil. }
  rewrite decide_False.
  2:{ rewrite length_app_string. destruct stem; [done|]. simpl. lia. }
  rewrite decide_False; [done|].
  intros Heq. apply (f_equal String.length) in Heq.
  rewrite length_app_string in Heq. simpl in Heq. lia.
Qed.

Lemma matchTimeReport_Some (fileName ds : string) :
  matchTimeReport fileName = Some ds
  ↔ fileName = "time-report-" +:+ ds ∧ ds ≠ "" ∧ JS.allDigits ds = true.
Proof.
  unfold matchTimeReport. split.
  - destruct (stripPrefix "time-report-" fileName) as [ds'|] eqn:Hp; [|done].
    destruct (bool_decide (ds' ≠ "") && JS.allDigits ds') eqn:Hd; [|done].
    intros [= ->]. apply andb_prop in Hd as [Hne Hd].
    apply bool_decide_eq_true in Hne. by apply stripPrefix_inv in Hp.
  - intros (-> & Hne & Hd). rewrite stripPrefix_app.
    by rewrite bool_decide_eq_true_2, Hd by done.
Qed.

Lemma allDigits_last (ds : string) (l l' : list ascii) (c : ascii) :
  ds ≠ "" → JS.allDigits ds = true →
  l ++ chars ds = l' ++ [c] → JS.isDigit c = true.
Proof.
  intros Hne Hd Heq. apply allDigits_chars in Hd.
  assert (last (l ++ chars ds) = Some c) as Hlast.
  { rewrite Heq. apply last_snoc. }
  destruct (chars ds) as [|x xs] eqn:Hds.
  - destruct ds; [done|discriminate].
  - rewrite last_app_cons in Hlast. apply last_elem_of in Hlast.
    by apply (proj1 (Forall_forall _ _) Hd).
Qed.

(** The names the handler takes. *)
Lemma filename_accepted (name ds : string) :
  toLowerCase (extname name) = ".csv"
  ∧ matchTimeReport (basename name ".csv") = Some ds
  ↔ lastComponent name = "time-report-" +:+ ds +:+ ".csv"
    ∧ ds ≠ "" ∧ JS.allDigits ds = true.
Proof.
  split.
  - intros [Hext Hname]. unfold basename in Hname.
    destruct (decide (name = ".csv")) as [->|Hcsv]; [done|].
    destruct (stripSuffix ".csv" (lastComponent name)) as [stem|] eqn:Hstem.
    + apply stripSuffix_inv in Hstem.
      destruct (decide (stem = "")) as [->|Hne].
      { rewrite Hstem in Hname. vm_compute in Hname. discriminate. }
      apply matchTimeReport_Some in Hname as (-> & Hds & Hd).
      by rewrite Hstem, app_assoc_string.
    + apply matchTimeReport_Some in Hname as (Hbase & Hds & Hd).
      destruct (toLowerCase_csv _ Hext) as (l & c & He & Hc).
      destruct (extname_nonempty name (extname name) eq_refl) as [pre Hpre].
      { intros Heq. by rewrite Heq in Hext. }
      rewrite Hbase in Hpre. apply (f_equal chars) in Hpre.
      rewrite !chars_app, He, app_assoc in Hpre.
      pose proof (allDigits_last ds _ _ c Hds Hd Hpre). congruence.
  - intros (Hbase & Hds & Hd).
    assert (extname name = ".csv") as Hext.
    { apply (extname_csv name ("time-report-" +:+ ds)); [|done].
      by rewrite app_assoc_string. }
    split; [by rewrite Hext|].
    unfold basename. rewrite decide_False.
    2:{ intros ->. vm_compute in Hbase. discriminate. }
    rewrite Hbase, <-app_assoc_string, stripSuffix_app.
    rewrite decide_False by done.
    by apply matchTimeReport_Some.
Qed.
End filenames.

(** X13.  The names the handler takes.  A name passes the check of the
    extension and carries the identifier [ds] exactly when its last path
    component is [time-report-], then [ds], a run of one digit at least,
    then [.csv] in lower case; for a name without a slash, that component
    is the name itself. *)
Theorem upload_filename (name ds : string) :
  (Upload.toLowerCase (Upload.extname name) = ".csv"
   ∧ Upload.matchTimeReport (Upload.basename name ".csv") = Some ds
   ↔ Upload.lastComponent name = "time-report-" +:+ ds +:+ ".csv"
     ∧ ds ≠ "" ∧ JS.allDigits ds = true)
  ∧ ("/"%char ∉ String.list_ascii_of_string name →
     Upload.lastComponent name = name).
Proof.
  split; [apply filename_accepted|apply lastComponent_no_slash].
Qed.

Lemma upload_filename_witness :
  Upload.lastComponent "time-report-42.csv" = "time-report-42.csv".
Proof.
  apply (proj2 (upload_filename "time-report-42.csv" "42")).
  vm_compute. intros Hin.
  repeat (apply elem_of_cons in Hin as [Hin|Hin]; [discriminate|]).
  by apply elem_of_nil in Hin.
Defined.

(** X14.  The check of the extension ignores the case of the letters, the
    removal of the suffix [.csv] does not: a staged file whose extension is
    [.csv] only up to case, such as [time-report-42.CSV], passes the first
    check and keeps its extension in the second, so that it is refused for
    its name, with status 400, and removed. *)
Theorem upload_extension_case (accepts : Upload.TimekeepingEntry → bool)
    (file : Upload.File) (w : Upload.World) (csv : Upload.Csv) :
  Upload.uploads w !! Upload.path file = Some csv →
  Upload.toLowerCase (Upload.extname (Upload.originalname file)) = ".csv" →
  Upload.extname (Upload.originalname file) ≠ ".csv" →
  Upload.upload accepts (Some file) w
  = (Upload.removeStaged file w, inr Upload.invalidFilenameFormat)
  ∧ status Upload.invalidFilenameFormat = 400.
Proof.
  intros Hst Hext Hcase. split; [|done].
  rewrite upload_csv by done. unfold Upload.catch.
  rewrite (uploadTry_bad_name accepts file w csv); [done..|].
  destruct (Upload.matchTimeReport _) as [ds|] eqn:Hname; [|done].
  destruct (proj1 (filename_accepted (Upload.originalname file) ds))
    as (Hbase & Hds & _); [done|].
  destruct Hcase.
  apply (extname_csv _ ("time-report-" +:+ ds)); [|done].
  by rewrite app_assoc_string.
Qed.

Lemma upload_extension_case_witness :
  let w := Sample.world (Sample.csv Sample.rows) in
  Upload.upload Sample.acceptAll (Some (Sample.file "time-report-42.CSV")) w
  = (Upload.removeStaged (Sample.file "time-report-42.CSV") w,
     inr Upload.invalidFilenameFormat)
  ∧ status Upload.invalidFilenameFormat = 400.
Proof.
  intros w.
  apply (upload_extension_case Sample.acceptAll (Sample.file "time-report-42.CSV")
           w (Sample.csv Sample.rows)).
  - vm_compute. reflexivity.
  - vm_compute. reflexivity.
  - vm_compute. discriminate.
Defined.

(** ** The total of the report *)

Section totals.
Import Report.
Local Open Scope Z_scope.










Lemma report_length (rows : list Row) :
  length (report rows) = length (accumulate rows).*1.
Proof.
  unfold report. rewrite (Permutation_length (sort_Permutation _ _)).
  unfold format. by rewrite length_map, length_fmap.
Qed.

Lemma accumulate_keys_length (rows : list Row) :
  (length (accumulate rows).*1 ≤ length rows)%nat
  ∧ (rows ≠ [] → (0 < length (accumulate rows).*1)%nat).
Proof.
  induction rows as [|r rows [IH1 IH2]] using rev_ind; [done|].
  rewrite accumulate_snoc, accumulateRow_keys, length_app. simpl.
  destruct (obj_get (rowKey r) (accumulate rows)) as [a|] eqn:Hget.
  - split; [lia|]. intros _.
    destruct (accumulate rows) as [|kv obj]; [done|]. simpl. lia.
  - rewrite length_app. simpl. split; [lia|]. intros _. lia.
Qed.

(** Every line shows the employee and the period of a row. *)
Lemma report_line_row (rows : list Row) (line : Line) :
  line ∈ report rows →
  ∃ r, r ∈ rows ∧ employeeId line = pretty (employee_id r)
       ∧ payPeriod line = getPayPeriod (date r).
Proof.
  unfold report. rewrite (sort_Permutation compareLines _).
  unfold format. intros Hin.
  apply list_elem_of_fmap in Hin as ([k a] & -> & Hin).
  apply obj_get_elem_of in Hin; [|apply accumulate_NoDup].
  rewrite accumulate_get in Hin.
  destruct (filter (λ r, rowKey r = k) rows) as [|r0 g] eqn:Hf; [done|].
  injection Hin as <-. exists r0. split; [|done].
  assert (r0 ∈ filter (λ r, rowKey r = k) rows) as Hr0 by (rewrite Hf; left).
  by apply list_elem_of_filter in Hr0 as [_ ?].
Qed.
End totals.



(** X16.  The report has no more lines than there are rows, and no line
    when, and only when, there is no row; every line shows the employee and
    the pay period of some row.  This holds for rows of any kind. *)
Theorem report_lines_from_rows (rows : list Report.Row) :
  (length (Report.report rows) ≤ length rows)%nat
  ∧ (Report.report rows = [] ↔ rows = [])
  ∧ ∀ line, line ∈ Report.report rows →
            ∃ r, r ∈ rows ∧ employeeId line = pretty (Report.employee_id r)
                 ∧ payPeriod line = getPayPeriod (Report.date r).
Proof.
  destruct (accumulate_keys_length rows) as [Hle Hpos].
  split; [by rewrite report_length|]. split; [|apply report_line_row].
  split.
  - intros Hnil. destruct rows as [|r rows]; [done|].
    pose proof (report_length (r :: rows)) as Hlen. rewrite Hnil in Hlen.
    specialize (Hpos ltac:(done)). simpl in Hlen. lia.
  - by intros ->.
Qed.

Lemma report_lines_from_rows_witness :
  let rows :=
    [Report.mkRow (mkDate 2023 0 4) 1000 1 "A";
     Report.mkRow (mkDate 2023 0 14) 550 1 "B";
     Report.mkRow (mkDate 2023 0 20) 300 2 "B"] in
  (length (Report.report rows) ≤ length rows)%nat.
Proof.
  intros rows. apply (report_lines_from_rows rows).
Defined.

(** ** Pay periods of any year *)

Section periods.
Local Abbreviation chars := String.list_ascii_of_string.
Local Open Scope Z_scope.

Lemma isLeap_two_digits (y : Z) :
  1 ≤ y ≤ 99 → JS.isLeap (1900 + y) = JS.isLeap y.
Proof.
  intros Hy. unfold JS.isLeap.
  assert ((1900 + y) `mod` 4 = y `mod` 4) as -> by (Z.div_mod_to_equations; lia).
  assert ((1900 + y) `mod` 100 = y) as -> by (Z.div_mod_to_equations; lia).
  assert (y `mod` 100 = y) as -> by (Z.div_mod_to_equations; lia).
  by rewrite (proj2 (Z.eqb_neq y 0)) by lia.
Qed.

(** Day 0 of the next month is the last day of the month, but for February
    of year 0. *)
Lemma Date_day0_getDate_all (y m : Z) :
  1 ≤ m ≤ 12 → ¬ (y = 0 ∧ m = 2) →
  JS.Date_day0_getDate y m = JS.daysInMonth y m.
Proof.
  intros Hm Hnot.
  destruct (decide (y < 0 ∨ 99 < y)) as [Hy|Hy].
  { by apply Date_day0_getDate_month. }
  unfold JS.Date_day0_getDate, JS.Date_full_year.
  rewrite (proj2 (Z.leb_le 0 y)), (proj2 (Z.leb_le y 99)) by lia. cbn [andb].
  assert ((m - 1) `div` 12 = 0) as -> by (Z.div_mod_to_equations; lia).
  assert ((m - 1) `mod` 12 + 1 = m) as -> by (Z.div_mod_to_equations; lia).
  rewrite Z.add_0_r.
  assert (m = 2 ∨ m ≠ 2) as [->|Hm2] by lia.
  - unfold JS.daysInMonth. rewrite isLeap_two_digits by lia. done.
  - unfold JS.daysInMonth.
    destruct m as [|[[[|[]|]|[|[]|]|]|[[|[]|]|[|[]|]|]|]|]; try lia; done.
Qed.

Lemma getPayPeriod_startDate_inj (d d' : Date) :
  0 ≤ getMonth d ≤ 11 → 0 ≤ getMonth d' ≤ 11 →
  startDate (getPayPeriod d) = startDate (getPayPeriod d') →
  getFullYear d = getFullYear d' ∧ getMonth d = getMonth d'
  ∧ Report.startDay d = Report.startDay d'.
Proof.
  intros Hm Hm' Heq.
  destruct (getPayPeriod_shape d Hm)
    as (m1 & m2 & s1 & s2 & e1 & e2 & Hs & _ & Hmm & Hss & _).
  destruct (getPayPeriod_shape d' Hm')
    as (m1' & m2' & s1' & s2' & e1' & e2' & Hs' & _ & Hmm' & Hss' & _).
  cbn zeta in *. rewrite Hs, Hs' in Heq. apply (f_equal chars) in Heq.
  rewrite !chars_app in Heq. cbn [String.list_ascii_of_string] in Heq.
  apply app_inj_2 in Heq as [Hy Hrest]; [|done].
  apply chars_inj in Hy. apply (inj pretty) in Hy.
  injection Hrest as -> -> -> ->.
  unfold Report.startDay. split; [done|]. split; [|congruence].
  assert (getMonth d + 1 = getMonth d' + 1) by congruence. lia.
Qed.
End periods.

(** X17.  The resolver partitions the dates: two dates have the same pay
    period exactly when they have the same year, the same month, and their
    days lie on the same side of the 15th.  The start of the period alone
    tells the periods apart. *)
Theorem getPayPeriod_same_period (d d' : Date) :
  0 ≤ getMonth d ≤ 11 → 0 ≤ getMonth d' ≤ 11 →
  (getPayPeriod d = getPayPeriod d'
   ↔ getFullYear d = getFullYear d' ∧ getMonth d = getMonth d'
     ∧ (getDate d ≤ 15 ↔ getDate d' ≤ 15))
  ∧ (startDate (getPayPeriod d) = startDate (getPayPeriod d')
     → getPayPeriod d = getPayPeriod d').
Proof.
  intros Hm Hm'.
  assert (∀ a b : Date, Report.startDay a = Report.startDay b
                        ↔ (getDate a ≤ 15 ↔ getDate b ≤ 15)) as Hside.
  { intros a b. unfold Report.startDay.
    destruct (decide (getDate a ≤ 15)), (decide (getDate b ≤ 15));
      split; (done || tauto). }
  split; [split|].
  - intros Heq. apply (f_equal startDate) in Heq.
    destruct (getPayPeriod_startDate_inj d d' Hm Hm' Heq) as (? & ? & ?).
    split; [done|]. split; [done|]. by apply Hside.
  - intros (Hy & Hmo & Hd). apply getPayPeriod_determined; [done..|].
    by apply Hside.
  - intros Heq.
    destruct (getPayPeriod_startDate_inj d d' Hm Hm' Heq) as (? & ? & ?).
    by apply getPayPeriod_determined.
Qed.

Lemma getPayPeriod_same_period_witness :
  getPayPeriod (mkDate 2023 10 16) = getPayPeriod (mkDate 2023 10 30)
  ↔ 2023 = 2023 ∧ 10 = 10 ∧ (16 ≤ 15 ↔ 30 ≤ 15).
Proof.
  refine (proj1 (getPayPeriod_same_period (mkDate 2023 10 16) (mkDate 2023 10 30)
                   _ _)); simpl; lia.
Defined.

(** X18.  The end of the second period of a month.  For a day after the
    15th, the period ends on the last day of the month of the date, in
    every year but one: the constructor of [Date] reads the year 0 as 1900,
    which is not a leap year, so that the second period of February of the
    year 0 ends on the 28th, although that month has 29 days. *)
Theorem getPayPeriod_last_day (d : Date) :
  0 ≤ getMonth d ≤ 11 → 15 < getDate d →
  endDate (getPayPeriod d)
  = pretty (getFullYear d) +:+ "-" +:+ JS.padStart2 (pretty (getMonth d + 1))
    +:+ "-"
    +:+ pretty (if decide (getFullYear d = 0 ∧ getMonth d = 1) then 28
                else JS.daysInMonth (getFullYear d) (getMonth d + 1))
  ∧ JS.daysInMonth 0 2 = 29.
Proof.
  intros Hm Hd. split; [|done].
  unfold getPayPeriod. rewrite (proj2 (Z.leb_gt _ _)) by lia.
  cbn [endDate].
  destruct (decide (getFullYear d = 0 ∧ getMonth d = 1)) as [[Hy Hmo]|Hnot].
  - rewrite Hy, Hmo. done.
  - rewrite Date_day0_getDate_all by lia. done.
Qed.

Lemma getPayPeriod_last_day_witness :
  endDate (getPayPeriod (mkDate 0 1 20)) = "0-02-28"
  ∧ JS.daysInMonth 0 2 = 29.
Proof.
  apply (getPayPeriod_last_day (mkDate 0 1 20)); simpl; lia.
Defined.

(** ** The set-up of the database *)

Section ensure.
Import Ensure.

Lemma connect_true (user password database : string) (s : Server) :
  connect user password database s = true
  ↔ roles s !! user = Some password ∧ is_Some (databases s !! database).
Proof.
  unfold connect. rewrite andb_true_iff, !bool_decide_eq_true. done.
Qed.


(** A statement only adds names; on a database that has the names of the
    schema it does nothing. *)
Lemma execute_grows (st : Statement) (db db' : Database) :
  execute st db = Some db' →
  tables db ⊆ tables db' ∧ indexes db ⊆ indexes db'.
Proof.
  unfold execute. intros H.
  repeat case_match; simplify_eq; cbn [tables indexes]; set_solver.
Qed.

Lemma executeAll_grows (sts : list Statement) (db db' : Database) :
  executeAll sts db = Some db' →
  tables db ⊆ tables db' ∧ indexes db ⊆ indexes db'.
Proof.
  revert db. induction sts as [|st sts IH]; intros db; simpl.
  - by intros [= <-].
  - destruct (execute st db) as [db1|] eqn:Hst; [|done]. intros Hrest.
    apply execute_grows in Hst as [? ?]. apply IH in Hrest as [? ?].
    split; by etrans.
Qed.

Lemma execute_names (st : Statement) (db db' : Database) :
  execute st db = Some db' → names st db'.
Proof.
  unfold execute, names. intros H.
  repeat case_match; simplify_eq; cbn [tables indexes]; set_solver.
Qed.

Lemma executeAll_names (sts : list Statement) (db db' : Database) :
  executeAll sts db = Some db' → Forall (λ st, names st db') sts.
Proof.
  revert db. induction sts as [|st sts IH]; intros db; simpl; [done|].
  destruct (execute st db) as [db1|] eqn:Hst; [|done]. intros Hrest.
  constructor; [|by eapply IH].
  apply execute_names in Hst. apply executeAll_grows in Hrest as [Ht Hi].
  destruct st; simpl in *.
  - by apply (proj1 (elem_of_subseteq _ _) Ht).
  - by apply (proj1 (elem_of_subseteq _ _) Hi).
Qed.

Lemma executeAll_present (sts : list Statement) (db : Database) :
  Forall (λ st, names st db) sts → executeAll sts db = Some db.
Proof.
  induction 1 as [|st sts Hst _ IH]; simpl; [done|].
  assert (execute st db = Some db) as ->; [|done].
  destruct st; simpl in *; by rewrite decide_True.
Qed.

Lemma execute_table (name : string) (references : option string)
    (db : Database) :
  (∀ other, references = Some other → other ∈ tables db) →
  ∃ db', execute (CreateTableIfNotExists name references) db = Some db'
         ∧ name ∈ tables db' ∧ tables db ⊆ tables db'.
Proof.
  intros Href. unfold execute.
  destruct (decide (name ∈ tables db)); [by exists db|].
  destruct references as [other|].
  - rewrite decide_True by (by apply Href). eexists. split; [done|].
    cbn [tables]. set_solver.
  - eexists. split; [done|]. cbn [tables]. set_solver.
Qed.

Lemma execute_index (name table : string) (db : Database) :
  table ∈ tables db →
  ∃ db', execute (CreateIndexIfNotExists name table) db = Some db'
         ∧ tables db' = tables db.
Proof.
  intros Htable. unfold execute.
  destruct (decide (name ∈ indexes db)); [by exists db|].
  rewrite decide_True by done. by eexists.
Qed.

(** The schema goes through on every database: each statement finds the
    table it needs, made by a statement before it if it was not there. *)
Lemma executeAll_schema (db : Database) :
  ∃ db', executeAll schemaSQL db = Some db'.
Proof.
  unfold schemaSQL. cbn [executeAll].
  destruct (execute_table "timekeeping_reports" None db) as (d1 & -> & Hr1 & _);
    [done|].
  destruct (execute_index "idx_report_id" "timekeeping_reports" d1 Hr1)
    as (d2 & -> & Ht2).
  destruct (execute_table "timekeeping_entries" (Some "timekeeping_reports") d2)
    as (d3 & -> & He3 & _).
  { intros other [= <-]. by rewrite Ht2. }
  destruct (execute_index "idx_timekeeping_report_id" "timekeeping_entries" d3 He3)
    as (d4 & -> & Ht4).
  destruct (execute_index "idx_timekeeping_employee_id" "timekeeping_entries" d4)
    as (d5 & -> & _); [by rewrite Ht4|].
  by exists d5.
Qed.

Lemma applySchema_returned (s s' : Server) :
  applySchema s = (s', Returned) →
  roles s !! "admin" = Some "timekeeper_pass"
  ∧ ∃ db db',
      databases s !! targetDB = Some db
      ∧ executeAll schemaSQL db = Some db'
      ∧ s' = mkServer (roles s) (<[ targetDB := db' ]> (databases s)).
Proof.
  unfold applySchema.
  destruct (connect "admin" "timekeeper_pass" targetDB s) eqn:Hc; [|done].
  apply connect_true in Hc as [Hrole _].
  destruct (databases s !! targetDB) as [db|]; [|done].
  destruct (executeAll schemaSQL db) as [db'|] eqn:Hx; [|done].
  intros [= <-]. split; [done|]. by exists db, db'.
Qed.

Lemma applySchema_ready (s : Server) (db : Database) :
  roles s !! "admin" = Some "timekeeper_pass" →
  databases s !! targetDB = Some db →
  ∃ db', executeAll schemaSQL db = Some db'
         ∧ applySchema s
           = (mkServer (roles s) (<[ targetDB := db' ]> (databases s)), Returned).
Proof.
  intros Hrole Hdb. unfold applySchema.
  rewrite (proj2 (connect_true _ _ _ _)) by (by rewrite Hdb).
  rewrite Hdb. destruct (executeAll_schema db) as [db' Hx].
  exists db'. by rewrite Hx.
Qed.

Lemma checkAndCreateDatabase_returned (s s' : Server) :
  checkAndCreateDatabase s = (s', Returned) →
  roles s !! "postgres" = Some "password"
  ∧ is_Some (databases s !! "postgres")
  ∧ roles s' = roles s
  ∧ ((is_Some (databases s !! targetDB) ∧ s' = s)
     ∨ (databases s !! targetDB = None ∧ is_Some (roles s !! "admin")
        ∧ databases s' = <[ targetDB := mkDatabase ∅ ∅ ]> (databases s))).
Proof.
  unfold checkAndCreateDatabase.
  destruct (connect "postgres" "password" "postgres" s) eqn:Hc; [|done].
  apply connect_true in Hc as [Hrole Hdb].
  destruct (databases s !! targetDB) as [db|] eqn:Ht.
  - rewrite decide_False by done. intros [= <-].
    split; [done|]. split; [done|]. split; [done|]. left. by split.
  - rewrite decide_True by done.
    destruct (decide (is_Some (roles s !! "admin"))) as [Hadmin|]; [|done].
    intros [= <-]. split; [done|]. split; [done|]. split; [done|].
    right. done.
Qed.

Lemma main_returned (s s' : Server) :
  main s = (s', Returned) →
  ready s
  ∧ roles s' = roles s
  ∧ ∃ db db',
      default (mkDatabase ∅ ∅) (databases s !! targetDB) = db
      ∧ executeAll schemaSQL db = Some db'
      ∧ databases s' = <[ targetDB := db' ]> (databases s).
Proof.
  unfold main.
  destruct (checkAndCreateDatabase s) as [s1 [|code]] eqn:Hcheck; [|done].
  intros Happly.
  apply checkAndCreateDatabase_returned in Hcheck
    as (Hpg & Hdb & Hroles & Hcases).
  apply applySchema_returned in Happly as (Hadmin & db & db' & Hget & Hx & ->).
  rewrite Hroles in Hadmin. split; [done|]. cbn [roles databases].
  split; [done|]. exists db, db'.
  destruct Hcases as [[[db0 Hdb0] ->]|(Hnone & _ & Hdbs)].
  - rewrite Hget. done.
  - rewrite Hdbs in Hget |- *. rewrite lookup_insert_eq in Hget.
    injection Hget as <-. rewrite Hnone. split; [done|]. split; [done|].
    by rewrite insert_insert_eq.
Qed.

Lemma main_ready (s : Server) :
  ready s →
  ∃ db', executeAll schemaSQL (default (mkDatabase ∅ ∅) (databases s !! targetDB))
         = Some db'
         ∧ main s
           = (mkServer (roles s) (<[ targetDB := db' ]> (databases s)), Returned).
Proof.
  intros (Hpg & Hadmin & Hdb). unfold main, checkAndCreateDatabase.
  rewrite (proj2 (connect_true _ _ _ _)) by done.
  destruct (databases s !! targetDB) as [db|] eqn:Ht.
  - rewrite decide_False by done.
    destruct (applySchema_ready s db Hadmin Ht) as (db' & Hx & ->).
    by exists db'.
  - rewrite decide_True by done. rewrite decide_True by (by rewrite Hadmin).
    destruct (applySchema_ready
                (mkServer (roles s) (<[ targetDB := mkDatabase ∅ ∅ ]> (databases s)))
                (mkDatabase ∅ ∅) Hadmin) as (db' & Hx & ->).
    { cbn [databases]. apply lookup_insert_eq. }
    exists db'. split; [done|]. cbn [roles databases].
    by rewrite insert_insert_eq.
Qed.
End ensure.



(** X20.  The set-up can be run again.  Once the script has returned,
    running it on the server it left changes nothing and returns: every
    statement of the schema finds its name taken. *)
Theorem ensure_run_again (s s' : Ensure.Server) :
  Ensure.main s = (s', Ensure.Returned) →
  Ensure.main s' = (s', Ensure.Returned).
Proof.
  intros Hmain.
  destruct (main_returned s s' Hmain)
    as ((Hpg & Hadmin & Hdb) & Hroles & db & db' & _ & Hx & Hdbs).
  assert (Ensure.ready s') as Hready.
  { split; [by rewrite Hroles|]. split; [by rewrite Hroles|].
    rewrite Hdbs, lookup_insert_ne by done. done. }
  destruct (main_ready s' Hready) as (db'' & Hx' & ->).
  rewrite Hdbs, lookup_insert_eq in Hx'. cbn [default] in Hx'.
  rewrite (executeAll_present _ db') in Hx' by (by eapply executeAll_names).
  injection Hx' as <-. rewrite Hdbs, insert_insert_eq, <-Hdbs. by destruct s'.
Qed.

Lemma ensure_run_again_witness :
  Ensure.main (Ensure.main Ensure.freshServer).1
  = ((Ensure.main Ensure.freshServer).1, Ensure.Returned).
Proof.
  apply (ensure_run_again Ensure.freshServer). vm_compute. reflexivity.
Defined.


